(** * odh-dashboard frontend: pipeline-server configuration, projects and
      cluster settings

    A shallow embedding of
      - [frontend/src/concepts/pipelines/content/configurePipelinesServer/utils.ts]
      - [frontend/src/api/k8s/projects.ts]
      - [frontend/src/pages/clusterSettings/ClusterSettings.tsx]

    JavaScript strings are sequences of UTF-16 code units, objects used as
    records are finite maps, promises are described by the instant at which
    they settle and by their outcome, and every call to an external service
    is written to a log. *)

From Stdlib Require Import Strings.String Strings.Ascii.
From stdpp Require Import gmap list fin_maps.

(** ** JavaScript strings *)

(** A string is the list of its UTF-16 code units. *)
Abbreviation jsstring := (list N).

(** The code units of an ASCII literal. *)
Definition js (s : string) : jsstring :=
  N_of_ascii <$> list_ascii_of_string s.

Local Open Scope N_scope.

(** ECMAScript [LineTerminator]: LF, CR, LS, PS. *)
Definition isLineTerminator (c : N) : bool :=
  (c =? 10) || (c =? 13) || (c =? 8232) || (c =? 8233).

(** ECMAScript [WhiteSpace]: TAB, VT, FF, ZWNBSP and the Unicode
    space separators. *)
Definition isWhiteSpace (c : N) : bool :=
  (c =? 9) || (c =? 11) || (c =? 12) || (c =? 32) || (c =? 160)
  || (c =? 5760) || ((8192 <=? c) && (c <=? 8202))
  || (c =? 8239) || (c =? 8287) || (c =? 12288) || (c =? 65279).

(** The class [\w] of a regular expression without the [u] and [i] flags:
    [A-Za-z0-9_]. *)
Definition isWordChar (c : N) : bool :=
  ((48 <=? c) && (c <=? 57)) || ((65 <=? c) && (c <=? 90))
  || ((97 <=? c) && (c <=? 122)) || (c =? 95).

Local Close Scope N_scope.

Section CodeUnits.
Context {A : Type} (p : A → bool).

Fixpoint takeWhile (l : list A) : list A :=
  match l with
  | [] => []
  | x :: l' => if p x then x :: takeWhile l' else []
  end.

Fixpoint dropWhile (l : list A) : list A :=
  match l with
  | [] => []
  | x :: l' => if p x then dropWhile l' else l
  end.

End CodeUnits.

(** Case analysis on a code unit that differs from a literal of at most
    six bits. *)
Ltac not_code_unit c :=
  destruct c as [|c]; [done|];
  do 6 (try (destruct c as [c|c|]; try done)).

(** [String.prototype.trim]: white space and line terminators are removed
    from both ends. *)
Definition isTrimmed (c : N) : bool := isWhiteSpace c || isLineTerminator c.

Definition trim (s : jsstring) : jsstring :=
  reverse (dropWhile isTrimmed (reverse (dropWhile isTrimmed s))).

(** Truthiness of a string ([!!s], [s || d]): the empty string is falsy. *)
Definition truthy (s : jsstring) : bool :=
  match s with [] => false | _ => true end.

(** [s || d] for strings. *)
Definition orElse (s d : jsstring) : jsstring := if truthy s then s else d.

(** [o || d] where [o] may be [undefined]. *)
Definition orDefault (o : option jsstring) (d : jsstring) : jsstring :=
  match o with
  | Some s => orElse s d
  | None => d
  end.

(** ** Errors, completions and promises *)

Inductive JsError :=
  | Error (message : jsstring)
  | TypeError (message : jsstring)
  | AxiosError (responseMessage : option jsstring).

(** The completion of a synchronous call: a value or a thrown error. *)
Inductive Completion (A : Type) :=
  | Normal (a : A)
  | Throw (e : JsError).
Arguments Normal {A} a.
Arguments Throw {A} e.

Inductive Outcome (A : Type) :=
  | Resolved (a : A)
  | Rejected (e : JsError).
Arguments Resolved {A} a.
Arguments Rejected {A} e.

(** A promise either never settles or settles at an instant with an
    outcome. *)
Inductive Promise (A : Type) :=
  | Pending
  | Settled (t : nat) (o : Outcome A).
Arguments Pending {A}.
Arguments Settled {A} t o.

(** [Promise.resolve(v)] evaluated at instant [now]. *)
Definition Promise_resolve {A} (now : nat) (v : A) : Promise A :=
  Settled now (Resolved v).

(** [p.then(f)]: a rejection passes through, a throwing callback rejects. *)
Definition Promise_then {A B} (p : Promise A) (f : A → Completion B) : Promise B :=
  match p with
  | Pending => Pending
  | Settled t (Resolved a) =>
      match f a with
      | Normal b => Settled t (Resolved b)
      | Throw e => Settled t (Rejected e)
      end
  | Settled t (Rejected e) => Settled t (Rejected e)
  end.

(** [Promise.all([p1, p2])]: fulfilled once both are, with the pair of
    values; rejected as soon as one of them rejects, with the error of the
    one that rejects first (at equal instants, the one listed first). *)
Definition Promise_all2 {A B} (p1 : Promise A) (p2 : Promise B) : Promise (A * B) :=
  match p1, p2 with
  | Settled t1 (Resolved a), Settled t2 (Resolved b) =>
      Settled (t1 `max` t2) (Resolved (a, b))
  | Settled t1 (Rejected e1), Settled t2 (Rejected e2) =>
      if decide (t1 ≤ t2) then Settled t1 (Rejected e1) else Settled t2 (Rejected e2)
  | Settled t1 (Rejected e1), _ => Settled t1 (Rejected e1)
  | _, Settled t2 (Rejected e2) => Settled t2 (Rejected e2)
  | _, _ => Pending
  end.

(** [rejectsFirst p1 p2 t e]: of the two promises given to [Promise.all],
    the one that rejects first rejects at [t] with [e]. *)
Definition rejectsFirst {A B} (p1 : Promise A) (p2 : Promise B) (t : nat)
    (e : JsError) : Prop :=
  (p1 = Settled t (Rejected e) ∧ ∀ t2 e2, p2 = Settled t2 (Rejected e2) → t ≤ t2)
  ∨ (p2 = Settled t (Rejected e) ∧ ∀ t1 e1, p1 = Settled t1 (Rejected e1) → t < t1).

(** [rejectsAlone p q t e]: [p] rejects at [t] with [e] and [q] does not
    reject. *)
Definition rejectsAlone {A B} (p : Promise A) (q : Promise B) (t : nat)
    (e : JsError) : Prop :=
  p = Settled t (Rejected e) ∧ ∀ t' e', q ≠ Settled t' (Rejected e').

(** What a remote service does with a request: it never answers, or it
    answers after some latency. *)
Inductive Reply (A : Type) :=
  | Hang
  | Answer (latency : nat) (o : Outcome A).
Arguments Hang {A}.
Arguments Answer {A} latency o.

Definition promiseOf {A} (issued : nat) (r : Reply A) : Promise A :=
  match r with
  | Hang => Pending
  | Answer d o => Settled (issued + d) o
  end.

(** [Promise.all] over a list, awaited from instant [now]. The rejection
    that comes first wins (at equal instants, the one listed first);
    otherwise the list of values is delivered once every promise is
    fulfilled, and never if one of them never settles. *)
Fixpoint firstRejection {A} (ps : list (Promise A)) : option (nat * JsError) :=
  match ps with
  | [] => None
  | Settled t (Rejected e) :: ps' =>
      match firstRejection ps' with
      | Some (t', e') => if decide (t ≤ t') then Some (t, e) else Some (t', e')
      | None => Some (t, e)
      end
  | _ :: ps' => firstRejection ps'
  end.

Fixpoint resolvedValues {A} (ps : list (Promise A)) : option (list A) :=
  match ps with
  | [] => Some []
  | Settled _ (Resolved a) :: ps' => (a ::.) <$> resolvedValues ps'
  | _ :: _ => None
  end.

Fixpoint latest {A} (now : nat) (ps : list (Promise A)) : nat :=
  match ps with
  | [] => now
  | Settled t _ :: ps' => t `max` latest now ps'
  | Pending :: ps' => latest now ps'
  end.

Definition Promise_all {A} (now : nat) (ps : list (Promise A)) : Promise (list A) :=
  match firstRejection ps with
  | Some (t, e) => Settled t (Rejected e)
  | None =>
      match resolvedValues ps with
      | Some vs => Settled (latest now ps) (Resolved vs)
      | None => Pending
      end
  end.

(** The promise is fulfilled with [true]. *)
Definition fulfilledTrue (p : Promise bool) : bool :=
  match p with
  | Settled _ (Resolved true) => true
  | _ => false
  end.

(** ** configurePipelinesServer/utils.ts *)

Module ConfigurePipelinesServer.

(** [EnvVariableDataEntry]: one key/value line of a form. *)
Record EnvVariableDataEntry := {
  key : jsstring;
  value : jsstring;
}.

(** [PipelineServerConfigType], as far as this file reads it. *)
Record DatabaseConfig := {
  useDefault : bool;
  db_value : list EnvVariableDataEntry;
}.

Record ObjectStorageConfig := {
  newValue : list EnvVariableDataEntry;
}.

Record PipelineServerConfigType := {
  database : DatabaseConfig;
  objectStorage : ObjectStorageConfig;
}.

(** Modelled from the spec: [dataEntryToRecord] is imported from
    [~/utilities/dataEntryToRecord], a file that is not embedded here. It
    builds a record from the key/value list; the reduction is the
    one [createDatabaseSecret] spells out for its own record, where a later
    entry overwrites an earlier one with the same key. *)
Definition dataEntryToRecord (data : list EnvVariableDataEntry) : gmap jsstring jsstring :=
  foldl (λ acc e, <[key e := value e]> acc) ∅ data.

(** The constants imported from [./const] and from
    [~/pages/projects/dataConnections/const]. These files are not embedded
    here, so the constants are taken as parameters. *)
Class Constants := {
  ExternalDatabaseSecret_KEY : jsstring;
  ExternalDatabaseSecret_NAME : jsstring;
  DatabaseConnectionKeys_HOST : jsstring;
  DatabaseConnectionKeys_PORT : jsstring;
  DatabaseConnectionKeys_USERNAME : jsstring;
  DatabaseConnectionKeys_PASSWORD : jsstring;
  DatabaseConnectionKeys_DATABASE : jsstring;
  AwsKeys_ACCESS_KEY_ID : jsstring;
  AwsKeys_SECRET_ACCESS_KEY : jsstring;
  DSPA_SECRET_NAME : jsstring;
}.

(** One row of the table [PIPELINE_AWS_FIELDS]. *)
Record FieldOptions := {
  field_key : jsstring;
  label : jsstring;
  isRequired : bool;
}.

(** Modelled from the spec: [assembleSecret(namespace, data, type, name)]
    is imported from [~/api]; the secret it assembles is kept as the four
    arguments it is given. A data value may be [undefined]. *)
Record K8sSecret := assembleSecret {
  secret_namespace : jsstring;
  secret_data : gmap jsstring (option jsstring);
  secret_type : jsstring;
  secret_name : jsstring;
}.

(** The secret the cluster answers with: [secret.metadata.name]. *)
Record SecretKind := {
  metadata_name : jsstring;
}.

(** One request sent to the cluster. *)
Record Call := {
  call_secret : K8sSecret;
  call_dryRun : bool;
  call_at : nat;
}.

(** The cluster behind [createSecret]: its reply to a request issued at a
    given instant. *)
Definition Cluster := K8sSecret → bool → nat → Reply SecretKind.

(** [createSecret(secret, { dryRun })] issued at instant [now]: the promise
    of the reply, and the request logged. *)
Definition createSecret (cluster : Cluster) (secret : K8sSecret) (dryRun : bool)
    (now : nat) : Promise SecretKind * list Call :=
  (promiseOf now (cluster secret dryRun now),
   [{| call_secret := secret; call_dryRun := dryRun; call_at := now |}]).

Record DatabaseSecretRef := {
  ref_key : jsstring;
  ref_name : jsstring;
}.

Record ObjectStorageSecretRef := {
  ref_secretName : jsstring;
}.

Abbreviation SecretsResponse := (option DatabaseSecretRef * ObjectStorageSecretRef)%type.

(** [DSPipelineKind['spec']]. *)
Record S3CredentialsSecret := {
  accessKey : jsstring;
  secretKey : jsstring;
  secretName : jsstring;
}.

Record ExternalStorage := {
  host : jsstring;
  scheme : jsstring;
  bucket : jsstring;
  region : jsstring;
  s3CredentialsSecret : S3CredentialsSecret;
}.

Record ObjectStorageSpec := {
  externalStorage : ExternalStorage;
}.

Record PasswordSecret := {
  passwordSecret_key : jsstring;
  passwordSecret_name : jsstring;
}.

Record ExternalDB := {
  externalDB_host : option jsstring;
  passwordSecret : PasswordSecret;
  pipelineDBName : option jsstring;
  port : option jsstring;
  username : option jsstring;
}.

Record DatabaseSpec := {
  externalDB : ExternalDB;
}.

Record DSPipelineSpec := {
  dspVersion : jsstring;
  spec_objectStorage : ObjectStorageSpec;
  spec_database : option DatabaseSpec;
}.

(** The [match] of line 104 and its two capture groups. The expression is
    anchored at the start and reads: optionally, a group of one or more
    word characters followed by [://]; then a group of any number of
    characters other than line terminators. It matches every string. The
    first group is greedy and [:] is not a word character, so the optional
    part is taken exactly when the longest run of word characters at the
    start is not empty and is followed by [://]; the second group then
    takes everything up to the first line terminator. *)
Definition matchEndpoint (s : jsstring) : option jsstring * jsstring :=
  let w := takeWhile isWordChar s in
  match w, dropWhile isWordChar s with
  | _ :: _, 58%N :: 47%N :: 47%N :: rest =>
      (Some w, takeWhile (λ c, negb (isLineTerminator c)) rest)
  | _, _ => (None, takeWhile (λ c, negb (isLineTerminator c)) s)
  end.

(** [s.replace(/\/$/, '')]: one slash at the very end is removed. *)
Definition stripTrailingSlash (s : jsstring) : jsstring :=
  match reverse s with
  | 47%N :: r => reverse r
  | _ => s
  end.

Section Utils.
Context `{Constants}.
Variable cluster : Cluster.

Definition createDatabaseSecret (databaseConfig : DatabaseConfig)
    (projectName : jsstring) (dryRun : bool) (now : nat)
    : Promise (option DatabaseSecretRef) * list Call :=
  if negb (useDefault databaseConfig) then
    let secretKey := ExternalDatabaseSecret_KEY in
    let databaseRecord : gmap jsstring jsstring :=
      foldl (λ acc e, <[key e := value e]> acc) ∅ (db_value databaseConfig) in
    let assembledSecret :=
      assembleSecret projectName
        {[ secretKey := databaseRecord !! DatabaseConnectionKeys_PASSWORD ]}
        (js "generic") ExternalDatabaseSecret_NAME in
    let '(p, log) := createSecret cluster assembledSecret dryRun now in
    (Promise_then p (λ secret,
       Normal (Some {| ref_key := secretKey; ref_name := metadata_name secret |})),
     log)
  else (Promise_resolve now None, []).

Definition createObjectStorageSecret (objectStorageConfig : ObjectStorageConfig)
    (projectName : jsstring) (dryRun : bool) (now : nat)
    : Promise ObjectStorageSecretRef * list Call :=
  let awsRecord := dataEntryToRecord (newValue objectStorageConfig) in
  let assembledSecret :=
    assembleSecret projectName
      (<[ AwsKeys_SECRET_ACCESS_KEY :=
            Some (default [] (awsRecord !! AwsKeys_SECRET_ACCESS_KEY)) ]>
         {[ AwsKeys_ACCESS_KEY_ID :=
              Some (default [] (awsRecord !! AwsKeys_ACCESS_KEY_ID)) ]})
      (js "generic") DSPA_SECRET_NAME in
  let '(p, log) := createSecret cluster assembledSecret dryRun now in
  (Promise_then p (λ secret, Normal {| ref_secretName := metadata_name secret |}),
   log).

(** Both creations are started at the same instant; the second pair is
    started when the first [Promise.all] is fulfilled. *)
Definition createSecrets (config : PipelineServerConfigType) (projectName : jsstring)
    (now : nat) : Promise SecretsResponse * list Call :=
  let '(d1, l1) := createDatabaseSecret (database config) projectName true now in
  let '(o1, l2) := createObjectStorageSecret (objectStorage config) projectName true now in
  match Promise_all2 d1 o1 with
  | Settled t (Resolved _) =>
      let '(d2, l3) := createDatabaseSecret (database config) projectName false t in
      let '(o2, l4) := createObjectStorageSecret (objectStorage config) projectName false t in
      (Promise_all2 d2 o2, l1 ++ l2 ++ l3 ++ l4)
  | Settled t (Rejected e) => (Settled t (Rejected e), l1 ++ l2)
  | Pending => (Pending, l1 ++ l2)
  end.

Definition createDSPipelineResourceSpec (config : PipelineServerConfigType)
    (secretsResponse : SecretsResponse) : Completion DSPipelineSpec :=
  let '(databaseSecret, objectStorageSecret) := secretsResponse in
  let databaseRecord := dataEntryToRecord (db_value (database config)) in
  let awsRecord := dataEntryToRecord (newValue (objectStorage config)) in
  let '(externalStorageScheme, externalStorageHost) :=
    match awsRecord !! js "AWS_S3_ENDPOINT" with
    | Some endpoint =>
        let '(g1, g2) := matchEndpoint endpoint in (g1, Some g2)
    | None => (None, None)
    end in
  match externalStorageHost with
  | None =>
      Throw (TypeError (js "Cannot read properties of undefined (reading 'replace')"))
  | Some h =>
      Normal {|
        dspVersion := js "v2";
        spec_objectStorage := {|
          externalStorage := {|
            host := orElse (stripTrailingSlash h) [];
            scheme := orDefault externalStorageScheme (js "https");
            bucket := orDefault (awsRecord !! js "AWS_S3_BUCKET") [];
            region := js "us-east-2";
            s3CredentialsSecret := {|
              accessKey := AwsKeys_ACCESS_KEY_ID;
              secretKey := AwsKeys_SECRET_ACCESS_KEY;
              secretName := ref_secretName objectStorageSecret;
            |};
          |};
        |};
        spec_database :=
          match databaseSecret with
          | Some databaseSecret =>
              Some {|
                externalDB := {|
                  externalDB_host := databaseRecord !! DatabaseConnectionKeys_HOST;
                  passwordSecret := {|
                    passwordSecret_key := ref_key databaseSecret;
                    passwordSecret_name := ref_name databaseSecret;
                  |};
                  pipelineDBName := databaseRecord !! DatabaseConnectionKeys_DATABASE;
                  port := databaseRecord !! DatabaseConnectionKeys_PORT;
                  username := databaseRecord !! DatabaseConnectionKeys_USERNAME;
                |};
              |}
          | None => None
          end;
      |}
  end.

Definition configureDSPipelineResourceSpec (config : PipelineServerConfigType)
    (projectName : jsstring) (now : nat) : Promise DSPipelineSpec * list Call :=
  let '(p, log) := createSecrets config projectName now in
  (Promise_then p (λ secretsResponse,
     createDSPipelineResourceSpec config secretsResponse),
   log).

Variable PIPELINE_AWS_FIELDS : list FieldOptions.

Definition objectStorageIsValid (objectStorage : list EnvVariableDataEntry) : bool :=
  forallb (λ e,
    if bool_decide (key e ∈ field_key <$> filter (λ field, isRequired field = true) PIPELINE_AWS_FIELDS)
    then truthy (trim (value e))
    else true) objectStorage.

(** The key of an entry is that of a required row of the table. *)
Definition requiredKey (k : jsstring) : Prop :=
  ∃ f, f ∈ PIPELINE_AWS_FIELDS ∧ isRequired f = true ∧ field_key f = k.

Definition getLabelName (index : jsstring) : jsstring :=
  match find (λ currentField, bool_decide (field_key currentField = index)) PIPELINE_AWS_FIELDS with
  | Some field => label field
  | None => []
  end.

End Utils.

End ConfigurePipelinesServer.

(** ** api/k8s/projects.ts *)

Module Projects.

(** [K8sModelCommon]. *)
Record K8sModelCommon := {
  apiGroup : jsstring;
  model_apiVersion : jsstring;
  model_kind : jsstring;
  plural : jsstring;
}.

(** The resource sent to create a project, [ProjectRequestKind]. *)
Record ProjectRequestKind := {
  request_apiVersion : jsstring;
  request_kind : jsstring;
  request_metadata_name : jsstring;
  request_description : jsstring;
  request_displayName : jsstring;
}.

(** The answer of the namespace endpoint: [response.data] may be missing,
    and so may its [applied] flag. *)
Record NamespaceStatus := {
  applied : option bool;
}.

Record AxiosResponse := {
  data : option NamespaceStatus;
}.

Section Api.
(** The values of the fields this file does not read. *)
Context {V : Type}.

(** The [metadata] of a resource: its name, its annotations (which may be
    missing) and all its other fields. *)
Record ObjectMeta := {
  metadata_name : jsstring;
  annotations : option (gmap jsstring jsstring);
  metadata_rest : gmap jsstring V;
}.

(** [ProjectKind]: the metadata and all other top-level fields. *)
Record ProjectKind := {
  metadata : ObjectMeta;
  project_rest : gmap jsstring V;
}.

(** A request to an external service, with the instant it is issued at. *)
Inductive Request :=
  | K8sCreateResource (model : K8sModelCommon) (resource : ProjectRequestKind) (at_ : nat)
  | K8sUpdateResource (model : K8sModelCommon) (resource : ProjectKind) (at_ : nat)
  | AxiosGet (url : jsstring) (at_ : nat).

(** The services behind the calls. *)
Record Services := {
  k8sCreate : K8sModelCommon → ProjectRequestKind → nat → Reply ProjectKind;
  k8sUpdate : K8sModelCommon → ProjectKind → nat → Reply ProjectKind;
  axiosGet : jsstring → nat → Reply AxiosResponse;
}.

(** Imported from files that are not embedded here: the model of projects,
    the product name, the translation of a display name into a resource
    name, and [throwErrorFromAxios], given by the error it throws for the
    error it receives. *)
Variable ProjectModel : K8sModelCommon.
Variable ODH_PRODUCT_NAME : jsstring.
Variable translateDisplayNameForK8s : jsstring → jsstring.
Variable throwErrorFromAxios : JsError → JsError.
Variable services : Services.

Definition ProjectRequest : K8sModelCommon := {|
  apiGroup := js "project.openshift.io";
  model_apiVersion := js "v1";
  model_kind := js "ProjectRequest";
  plural := js "projectrequests";
|}.

(** The message of the error thrown when the labels were not applied. *)
Definition unableToCreateMessage : jsstring :=
  js "Unable to fully create your project. Ask a " ++ ODH_PRODUCT_NAME
  ++ js " admin for assistance.".

(** [response.data?.applied ?? false]. *)
Definition appliedOf (response : AxiosResponse) : bool :=
  default false (data response ≫= applied).

(** The project request that [createProject] sends. *)
Definition createProject_resource (displayName description : jsstring)
    (k8sName : option jsstring) : ProjectRequestKind :=
  let name := orDefault k8sName (translateDisplayNameForK8s displayName) in
  {|
    request_apiVersion := js "project.openshift.io/v1";
    request_kind := js "ProjectRequest";
    request_metadata_name := orDefault k8sName (translateDisplayNameForK8s name);
    request_description := description;
    request_displayName := displayName;
  |}.

(** The address of the namespace endpoint for a project. *)
Definition namespaceUrl (projectName : jsstring) : jsstring :=
  js "/api/namespaces/" ++ projectName ++ js "/0".

Definition createProject (username displayName description : jsstring)
    (k8sName : option jsstring) (now : nat) : Promise jsstring * list Request :=
  let resource := createProject_resource displayName description k8sName in
  let created := [K8sCreateResource ProjectRequest resource now] in
  match promiseOf now (k8sCreate services ProjectRequest resource now) with
  | Pending => (Pending, created)
  | Settled t (Rejected e) => (Settled t (Rejected e), created)
  | Settled t (Resolved project) =>
      let projectName := metadata_name (metadata project) in
      let log := created ++ [AxiosGet (namespaceUrl projectName) t] in
      match promiseOf t (axiosGet services (namespaceUrl projectName) t) with
      | Pending => (Pending, log)
      | Settled t' (Resolved response) =>
          if negb (appliedOf response)
          then (Settled t' (Rejected (throwErrorFromAxios (Error unableToCreateMessage))), log)
          else (Settled t' (Resolved projectName), log)
      | Settled t' (Rejected e) => (Settled t' (Rejected (throwErrorFromAxios e)), log)
      end
  end.

(** The resource [updateProject] assembles before it sends it. *)
Definition updateProject_resource (editProjectData : ProjectKind)
    (displayName description : jsstring) : ProjectKind := {|
  metadata := {|
    metadata_name := metadata_name (metadata editProjectData);
    annotations :=
      Some (<[ js "openshift.io/description" := description ]>
             (<[ js "openshift.io/display-name" := trim displayName ]>
                (default ∅ (annotations (metadata editProjectData)))));
    metadata_rest := metadata_rest (metadata editProjectData);
  |};
  project_rest := project_rest editProjectData;
|}.

Definition updateProject (editProjectData : ProjectKind)
    (displayName description : jsstring) (now : nat)
    : Promise ProjectKind * list Request :=
  let resource := updateProject_resource editProjectData displayName description in
  (promiseOf now (k8sUpdate services ProjectModel resource now),
   [K8sUpdateResource ProjectModel resource now]).

End Api.

Section Serving.
(** The values of the fields this file does not read, the options of a
    call, a serving runtime, and the cases of the namespace endpoint with
    their text in an address. *)
Context {V K8sAPIOptions ServingRuntimeKind NamespaceApplicationCase : Type}.
Variable renderCase : NamespaceApplicationCase → jsstring.

(** Imported from files that are not embedded here. *)
Variable ProjectModel : K8sModelCommon.
Variable ODH_PRODUCT_NAME : jsstring.
Variable LABEL_SELECTOR_DASHBOARD_RESOURCE : jsstring.
Variable LABEL_SELECTOR_MODEL_SERVING_PROJECT : jsstring.
Variable throwErrorFromAxios : JsError → JsError.

(** The argument of [k8sListResource]: what [applyK8sAPIOptions] is given,
    that is the model, the label selector of the query, if any, and the
    options of the caller. *)
Record ListRequest := {
  list_model : K8sModelCommon;
  list_labelSelector : option jsstring;
  list_opts : option K8sAPIOptions;
}.

Inductive ServingRequest :=
  | K8sListResource (request : ListRequest) (at_ : nat)
  | ListServingRuntimes (namespace : jsstring) (at_ : nat)
  | AxiosGetParams (url : jsstring) (params : list (jsstring * jsstring)) (at_ : nat).

(** The services behind the calls; a list request is answered with the
    [items] of the list. *)
Record ServingServices := {
  k8sList : ListRequest → nat → Reply (list (@ProjectKind V));
  listServingRuntimes : jsstring → nat → Reply (list ServingRuntimeKind);
  axiosGetParams : jsstring → list (jsstring * jsstring) → nat → Reply AxiosResponse;
}.

Variable servingServices : ServingServices.

Definition getProjects (withLabel : option jsstring) (opts : option K8sAPIOptions)
    (now : nat) : Promise (list (@ProjectKind V)) * list ServingRequest :=
  let request := {|
    list_model := ProjectModel;
    list_labelSelector :=
      match withLabel with
      | Some l => if truthy l then Some l else None
      | None => None
      end;
    list_opts := opts;
  |} in
  (Promise_then (promiseOf now (k8sList servingServices request now))
     (λ items, Normal items),
   [K8sListResource request now]).

Definition getModelServingProjects (opts : option K8sAPIOptions) (now : nat)
    : Promise (list (@ProjectKind V)) * list ServingRequest :=
  getProjects
    (Some (LABEL_SELECTOR_DASHBOARD_RESOURCE ++ js "," ++ LABEL_SELECTOR_MODEL_SERVING_PROJECT))
    opts now.

(** [filter(arr, callback)]: every callback is started at once, in the
    order of the array; an item whose callback answers [false] is replaced
    by the [fail] symbol, here [None], and these are dropped at the end. *)
Definition filter (arr : list (@ProjectKind V))
    (callback : @ProjectKind V → nat → Promise bool * list ServingRequest)
    (now : nat) : Promise (list (@ProjectKind V)) * list ServingRequest :=
  let started := (λ item, (item, callback item now)) <$> arr in
  let marked := (λ '(item, (p, _)),
    Promise_then p (λ keep : bool, Normal (if keep then Some item else None))) <$> started in
  (Promise_then (Promise_all now marked) (λ marks, Normal (omap id marks)),
   concat ((λ '(_, (_, log)), log) <$> started)).

(** The promise that [filter] makes for one item. *)
Definition mark (callback : @ProjectKind V → nat → Promise bool * list ServingRequest)
    (now : nat) (item : @ProjectKind V) : Promise (option (@ProjectKind V)) :=
  Promise_then (callback item now).1
    (λ keep : bool, Normal (if keep then Some item else None)).

(** The callback of [getModelServingProjectsAvailable]. *)
Definition hasServingRuntimes (project : @ProjectKind V) (now : nat)
    : Promise bool * list ServingRequest :=
  let namespace := metadata_name (metadata project) in
  (Promise_then (promiseOf now (listServingRuntimes servingServices namespace now))
     (λ projectServing, Normal (negb (length projectServing =? 0))),
   [ListServingRuntimes namespace now]).

Definition getModelServingProjectsAvailable (now : nat)
    : Promise (list (@ProjectKind V)) * list ServingRequest :=
  let '(p, log) := getModelServingProjects None now in
  match p with
  | Pending => (Pending, log)
  | Settled t (Rejected e) => (Settled t (Rejected e), log)
  | Settled t (Resolved projects) =>
      let '(q, log') := filter projects hasServingRuntimes t in
      (q, log ++ log')
  end.

Definition unableToEnableMessage : jsstring :=
  js "Unable to enable model serving platform in your project. Ask a " ++ ODH_PRODUCT_NAME
  ++ js " admin for assistance.".

Definition addSupportServingPlatformProject (name : jsstring)
    (servingPlatform : NamespaceApplicationCase) (dryRun : bool) (now : nat)
    : Promise jsstring * list ServingRequest :=
  let url := js "/api/namespaces/" ++ name ++ js "/" ++ renderCase servingPlatform in
  let params := if dryRun then [(js "dryRun", js "All")] else [] in
  (match promiseOf now (axiosGetParams servingServices url params now) with
   | Pending => Pending
   | Settled t (Resolved response) =>
       if negb (appliedOf response)
       then Settled t (Rejected (throwErrorFromAxios (Error unableToEnableMessage)))
       else Settled t (Resolved name)
   | Settled t (Rejected e) => Settled t (Rejected (throwErrorFromAxios e))
   end,
   [AxiosGetParams url params now]).

End Serving.

End Projects.

(** ** pages/clusterSettings/ClusterSettings.tsx *)

Module ClusterSettings.

(** The numbers of this form: a whole number (a size in GiB, a timeout in
    seconds) or [NaN]. *)
Inductive number :=
  | NaN
  | Finite (z : Z).

#[global] Instance number_eq_dec : EqDecision number.
Proof. solve_decision. Defined.

Record ModelServingPlatformEnabled := {
  kServe : bool;
  modelMesh : bool;
}.

#[global] Instance ModelServingPlatformEnabled_eq_dec : EqDecision ModelServingPlatformEnabled.
Proof. solve_decision. Defined.

Record NotebookTolerationSettings := {
  enabled : bool;
  key : jsstring;
}.

#[global] Instance NotebookTolerationSettings_eq_dec : EqDecision NotebookTolerationSettings.
Proof. solve_decision. Defined.

(** The toleration settings of the form carry an optional error. *)
Record NotebookTolerationFormSettings := {
  form_enabled : bool;
  form_key : jsstring;
  form_error : option jsstring;
}.

Record ClusterSettingsType := {
  settings_pvcSize : number;
  settings_cullerTimeout : number;
  settings_userTrackingEnabled : bool;
  settings_notebookTolerationSettings : option NotebookTolerationSettings;
  modelServingPlatformEnabled : ModelServingPlatformEnabled;
}.

#[global] Instance ClusterSettingsType_eq_dec : EqDecision ClusterSettingsType.
Proof. solve_decision. Defined.

(** The state of the component. *)
Record State := {
  loaded : bool;
  saving : bool;
  loadError : option JsError;
  clusterSettings : ClusterSettingsType;
  pvcSize : number;
  userTrackingEnabled : bool;
  cullerTimeout : number;
  notebookTolerationSettings : NotebookTolerationFormSettings;
  modelServingEnabledPlatforms : ModelServingPlatformEnabled;
}.

Inductive AlertVariant := success | danger.

Record Notification := {
  status : AlertVariant;
  title : jsstring;
  message : jsstring;
}.

(** What the component asks of the outside. *)
Inductive Effect :=
  | UpdateClusterSettings (settings : ClusterSettingsType)
  | Dispatch (notification : Notification).

(** The answer of [updateClusterSettings]. *)
Record UpdateResponse := {
  response_success : bool;
  response_error : jsstring;
}.

(** [_.isEqual] on settings: structural equality. *)
Definition isEqual (a b : ClusterSettingsType) : bool := bool_decide (a = b).

(** [!n] for a number: [0] and [NaN] are falsy. *)
Definition number_not (n : number) : bool :=
  match n with
  | NaN => true
  | Finite z => bool_decide (z = 0%Z)
  end.

(** [n < m], [n >= m] and [Number(n) !== 0]; a comparison with [NaN] is
    false, and [NaN] differs from every number. *)
Definition number_lt (n : number) (m : Z) : bool :=
  match n with
  | NaN => false
  | Finite z => bool_decide (z < m)%Z
  end.

Definition number_ge (n : number) (m : Z) : bool :=
  match n with
  | NaN => false
  | Finite z => bool_decide (m ≤ z)%Z
  end.

Definition number_nonzero (n : number) : bool :=
  match n with
  | NaN => true
  | Finite z => bool_decide (z ≠ 0%Z)
  end.

Section Form.
(** Imported from [./const]. *)
Variable MIN_CULLER_TIMEOUT : Z.

(** The settings object that both [isSettingsChanged] and the save handler
    build from the fields of the form. *)
Definition newClusterSettings (st : State) : ClusterSettingsType := {|
  settings_pvcSize := pvcSize st;
  settings_cullerTimeout := cullerTimeout st;
  settings_userTrackingEnabled := userTrackingEnabled st;
  settings_notebookTolerationSettings := Some {|
    enabled := form_enabled (notebookTolerationSettings st);
    key := form_key (notebookTolerationSettings st);
  |};
  modelServingPlatformEnabled := modelServingEnabledPlatforms st;
|}.

Definition isSettingsChanged (st : State) : bool :=
  negb (isEqual (clusterSettings st) (newClusterSettings st)).

(** The [isDisabled] property of the save button. *)
Definition isDisabled (st : State) : bool :=
  saving st
  || number_not (pvcSize st)
  || number_lt (cullerTimeout st) MIN_CULLER_TIMEOUT
  || negb (isSettingsChanged st)
  || match form_error (notebookTolerationSettings st) with
     | Some e => truthy e
     | None => false
     end.

Definition setSaving (b : bool) (st : State) : State := {|
  loaded := loaded st;
  saving := b;
  loadError := loadError st;
  clusterSettings := clusterSettings st;
  pvcSize := pvcSize st;
  userTrackingEnabled := userTrackingEnabled st;
  cullerTimeout := cullerTimeout st;
  notebookTolerationSettings := notebookTolerationSettings st;
  modelServingEnabledPlatforms := modelServingEnabledPlatforms st;
|}.

Definition setClusterSettings (s : ClusterSettingsType) (st : State) : State := {|
  loaded := loaded st;
  saving := saving st;
  loadError := loadError st;
  clusterSettings := s;
  pvcSize := pvcSize st;
  userTrackingEnabled := userTrackingEnabled st;
  cullerTimeout := cullerTimeout st;
  notebookTolerationSettings := notebookTolerationSettings st;
  modelServingEnabledPlatforms := modelServingEnabledPlatforms st;
|}.

(** The click handler, up to the call of [updateClusterSettings]: the next
    state and what was asked of the outside. *)
Definition handleSaveButtonClicked (st : State) : State * list Effect :=
  let new := newClusterSettings st in
  if negb (isEqual (clusterSettings st) new) then
    if number_nonzero (settings_pvcSize new)
       && number_ge (settings_cullerTimeout new) MIN_CULLER_TIMEOUT
    then (setSaving true st, [UpdateClusterSettings new])
    else (st, [])
  else (st, []).

(** The [then] and [catch] callbacks of the call, run when it settles. *)
Definition handleUpdateSettled (new : ClusterSettingsType)
    (o : Outcome UpdateResponse) (errorMessage : JsError → jsstring) (st : State)
    : State * list Effect :=
  let failed (m : jsstring) :=
    (setSaving false st,
     [Dispatch {| status := danger; title := js "Error"; message := m |}]) in
  match o with
  | Resolved response =>
      if response_success response then
        (setClusterSettings new (setSaving false st),
         [Dispatch {|
            status := success;
            title := js "Cluster settings changes saved";
            message := js "It may take up to 2 minutes for configuration changes to be applied.";
          |}])
      else failed (response_error response)
  | Rejected e => failed (errorMessage e)
  end.

End Form.

Section Lifecycle.
(** Imported from [./const], and the answer of [useCheckJupyterEnabled]. *)
Variable DEFAULT_CONFIG : ClusterSettingsType.
Variable DEFAULT_PVC_SIZE : number.
Variable DEFAULT_CULLER_TIMEOUT : number.
Variable DEFAULT_TOLERATION_VALUE : jsstring.
Variable isJupyterEnabled : bool.

(** The state of the first render. *)
Definition initialState : State := {|
  loaded := false;
  saving := false;
  loadError := None;
  clusterSettings := DEFAULT_CONFIG;
  pvcSize := DEFAULT_PVC_SIZE;
  userTrackingEnabled := false;
  cullerTimeout := DEFAULT_CULLER_TIMEOUT;
  notebookTolerationSettings := {|
    form_enabled := false;
    form_key := if isJupyterEnabled then DEFAULT_TOLERATION_VALUE else [];
    form_error := None;
  |};
  modelServingEnabledPlatforms := modelServingPlatformEnabled DEFAULT_CONFIG;
|}.

(** The [then] and [catch] callbacks of [fetchClusterSettings]. *)
Definition handleFetchSettled (o : Outcome ClusterSettingsType) (st : State) : State :=
  match o with
  | Resolved fetched => {|
      loaded := true;
      saving := saving st;
      loadError := None;
      clusterSettings := fetched;
      pvcSize := pvcSize st;
      userTrackingEnabled := userTrackingEnabled st;
      cullerTimeout := cullerTimeout st;
      notebookTolerationSettings := notebookTolerationSettings st;
      modelServingEnabledPlatforms := modelServingPlatformEnabled fetched;
    |}
  | Rejected e => {|
      loaded := loaded st;
      saving := saving st;
      loadError := Some e;
      clusterSettings := clusterSettings st;
      pvcSize := pvcSize st;
      userTrackingEnabled := userTrackingEnabled st;
      cullerTimeout := cullerTimeout st;
      notebookTolerationSettings := notebookTolerationSettings st;
      modelServingEnabledPlatforms := modelServingEnabledPlatforms st;
    |}
  end.

End Lifecycle.

End ClusterSettings.

(** ** Sample inputs *)

Module Samples.
Import ConfigurePipelinesServer.

(** A choice of the imported constants. *)
#[export] Instance constants : Constants := {|
  ExternalDatabaseSecret_KEY := js "db-password";
  ExternalDatabaseSecret_NAME := js "pipelines-db-password";
  DatabaseConnectionKeys_HOST := js "host";
  DatabaseConnectionKeys_PORT := js "port";
  DatabaseConnectionKeys_USERNAME := js "username";
  DatabaseConnectionKeys_PASSWORD := js "password";
  DatabaseConnectionKeys_DATABASE := js "database";
  AwsKeys_ACCESS_KEY_ID := js "AWS_ACCESS_KEY_ID";
  AwsKeys_SECRET_ACCESS_KEY := js "AWS_SECRET_ACCESS_KEY";
  DSPA_SECRET_NAME := js "dashboard-dspa-secret";
|}.

Definition entry (k v : string) : EnvVariableDataEntry :=
  {| key := js k; value := js v |}.

(** A cluster that accepts every request after one instant and names the
    secret it answers with after the request, with a suffix for real
    creations. *)
Definition acceptingCluster : Cluster := λ secret dryRun _,
  Answer 1 (Resolved {| metadata_name :=
    secret_name secret ++ (if dryRun then [] else js "-x7k2p") |}).

(** A cluster that rejects both dry runs, the object-storage one first. *)
Definition rejectingCluster : Cluster := λ secret _ _,
  if bool_decide (secret_name secret = js "pipelines-db-password")
  then Answer 2 (Rejected (Error (js "database secret refused")))
  else Answer 1 (Rejected (Error (js "storage secret refused"))).

Definition externalDatabase : DatabaseConfig := {|
  useDefault := false;
  db_value := [entry "host" "mariadb.example"; entry "port" "3306";
               entry "username" "admin"; entry "password" "hunter2";
               entry "database" "mlpipelines"];
|}.

Definition defaultDatabase : DatabaseConfig := {|
  useDefault := true;
  db_value := [];
|}.

Definition storage (endpoint : string) : ObjectStorageConfig := {|
  newValue := [entry "AWS_ACCESS_KEY_ID" "AKIA"; entry "AWS_SECRET_ACCESS_KEY" "s3cr3t";
               entry "AWS_S3_ENDPOINT" endpoint; entry "AWS_S3_BUCKET" "my-bucket"];
|}.

(** A form of the object storage without an endpoint entry. *)
Definition storageWithoutEndpoint : ObjectStorageConfig := {|
  newValue := [entry "AWS_ACCESS_KEY_ID" "AKIA"; entry "AWS_SECRET_ACCESS_KEY" "s3cr3t";
               entry "AWS_S3_BUCKET" "my-bucket"];
|}.

Definition config (db : DatabaseConfig) (endpoint : string) : PipelineServerConfigType :=
  {| database := db; objectStorage := storage endpoint |}.

(** A table of fields with required and optional rows. *)
Definition fields : list FieldOptions := [
  {| field_key := js "AWS_ACCESS_KEY_ID"; label := js "Access key"; isRequired := true |};
  {| field_key := js "AWS_SECRET_ACCESS_KEY"; label := js "Secret key"; isRequired := true |};
  {| field_key := js "AWS_S3_ENDPOINT"; label := js "Endpoint"; isRequired := true |};
  {| field_key := js "AWS_DEFAULT_REGION"; label := js "Region"; isRequired := false |};
  {| field_key := js "AWS_S3_BUCKET"; label := js "Bucket"; isRequired := true |}
].

End Samples.

Module ProjectSamples.
Import Projects.

(** [throwErrorFromAxios] as a function that throws the message of the
    response of an Axios error and throws any other error again. *)
Definition throwErrorFromAxios (e : JsError) : JsError :=
  match e with
  | AxiosError (Some m) => Error m
  | _ => e
  end.

(** The cluster creates the project under the requested name; the
    namespace endpoint answers that the labels were not applied. *)
Definition notApplied : @Services unit := {|
  k8sCreate := λ _ resource _,
    Answer 1 (Resolved {|
      metadata := {| metadata_name := request_metadata_name resource;
                     annotations := None; metadata_rest := ∅ |};
      project_rest := ∅ |});
  k8sUpdate := λ _ resource _, Answer 1 (Resolved resource);
  axiosGet := λ _ _, Answer 1 (Resolved {| data := Some {| applied := Some false |} |});
|}.

(** A display name in lower case with dashes for spaces. *)
Definition translateDisplayNameForK8s (s : jsstring) : jsstring :=
  (λ c, if (c =? 32)%N then 45%N else if ((65 <=? c) && (c <=? 90))%N then (c + 32)%N else c)
    <$> s.

Definition ProjectModel : K8sModelCommon := {|
  apiGroup := js "project.openshift.io";
  model_apiVersion := js "v1";
  model_kind := js "Project";
  plural := js "projects";
|}.

Definition project (n : string) : @ProjectKind unit := {|
  metadata := {| metadata_name := js n; annotations := None; metadata_rest := ∅ |};
  project_rest := ∅;
|}.

(** Two projects are listed; only [alpha] has a serving runtime; the
    namespace endpoint answers that the labels were applied. *)
Definition serving : @ServingServices unit unit unit := {|
  k8sList := λ _ _, Answer 1 (Resolved [project "alpha"; project "beta"]);
  listServingRuntimes := λ namespace _,
    Answer 1 (Resolved (if bool_decide (namespace = js "alpha") then [tt] else []));
  axiosGetParams := λ _ _ _,
    Answer 1 (Resolved {| data := Some {| applied := Some true |} |});
|}.

(** The cases of the namespace endpoint as numbers below ten. *)
Definition renderCase (c : nat) : jsstring := [(48 + N.of_nat c)%N].

End ProjectSamples.

Module ClusterSettingsSamples.
Import ClusterSettings.

Definition baseline : ClusterSettingsType := {|
  settings_pvcSize := Finite 20;
  settings_cullerTimeout := Finite 31536000;
  settings_userTrackingEnabled := false;
  settings_notebookTolerationSettings :=
    Some {| enabled := false; key := js "NotebooksOnly" |};
  modelServingPlatformEnabled := {| kServe := true; modelMesh := false |};
|}.

(** The form after the size was set to [0]. *)
Definition zeroSize : State := {|
  loaded := true;
  saving := false;
  loadError := None;
  clusterSettings := baseline;
  pvcSize := Finite 0;
  userTrackingEnabled := false;
  cullerTimeout := Finite 31536000;
  notebookTolerationSettings :=
    {| form_enabled := false; form_key := js "NotebooksOnly"; form_error := None |};
  modelServingEnabledPlatforms := {| kServe := true; modelMesh := false |};
|}.

(** The form after the timeout was set to one minute. *)
Definition shortTimeout : State := {|
  loaded := true;
  saving := false;
  loadError := None;
  clusterSettings := baseline;
  pvcSize := Finite 20;
  userTrackingEnabled := false;
  cullerTimeout := Finite 60;
  notebookTolerationSettings :=
    {| form_enabled := false; form_key := js "NotebooksOnly"; form_error := None |};
  modelServingEnabledPlatforms := {| kServe := true; modelMesh := false |};
|}.

(** The form after the size was set to [30]. *)
Definition largerSize : State := {|
  loaded := true;
  saving := false;
  loadError := None;
  clusterSettings := baseline;
  pvcSize := Finite 30;
  userTrackingEnabled := false;
  cullerTimeout := Finite 31536000;
  notebookTolerationSettings :=
    {| form_enabled := false; form_key := js "NotebooksOnly"; form_error := None |};
  modelServingEnabledPlatforms := {| kServe := true; modelMesh := false |};
|}.

End ClusterSettingsSamples.

(** ** Properties of the helpers *)

Section CodeUnitsFacts.
Context {A : Type} (p : A → bool).

Lemma takeWhile_dropWhile l : takeWhile p l ++ dropWhile p l = l.
Proof. induction l as [|x l IH]; simpl; [done|]. destruct (p x); simpl; congruence. Qed.

Lemma takeWhile_all l : forallb p l = true → takeWhile p l = l.
Proof.
  induction l as [|x l IH]; simpl; [done|].
  intros [Hx Hl]%andb_prop. rewrite Hx. f_equal. auto.
Qed.

Lemma takeWhile_app_stop l x r :
  forallb p l = true → p x = false → takeWhile p (l ++ x :: r) = l.
Proof.
  induction l as [|y l IH]; simpl; intros Hl Hx.
  - by rewrite Hx.
  - apply andb_prop in Hl as [Hy Hl]. rewrite Hy. f_equal. auto.
Qed.

Lemma dropWhile_app_stop l x r :
  forallb p l = true → p x = false → dropWhile p (l ++ x :: r) = x :: r.
Proof.
  induction l as [|y l IH]; simpl; intros Hl Hx.
  - by rewrite Hx.
  - apply andb_prop in Hl as [Hy Hl]. rewrite Hy. auto.
Qed.

Lemma takeWhile_forallb l : forallb p (takeWhile p l) = true.
Proof. induction l as [|x l IH]; simpl; [done|]. destruct (p x) eqn:E; simpl; [by rewrite E|done]. Qed.

Lemma dropWhile_head l x r : dropWhile p l = x :: r → p x = false.
Proof.
  induction l as [|y l IH]; simpl; [done|].
  destruct (p y) eqn:E; [auto|]. intros [= <- _]. done.
Qed.
End CodeUnitsFacts.

Section PromiseFacts.
Context {A B : Type}.

Lemma Promise_all2_resolved_inv (p1 : Promise A) (p2 : Promise B) t v :
  Promise_all2 p1 p2 = Settled t (Resolved v) →
  ∃ t1 a t2 b, p1 = Settled t1 (Resolved a) ∧ p2 = Settled t2 (Resolved b)
               ∧ t = t1 `max` t2 ∧ v = (a, b).
Proof.
  destruct p1 as [|t1 [a|e1]], p2 as [|t2 [b|e2]]; simpl; try done.
  - intros [= <- <-]. by exists t1, a, t2, b.
  - case_decide; done.
Qed.

Lemma Promise_all2_rejected (p1 : Promise A) (p2 : Promise B) t e :
  Promise_all2 p1 p2 = Settled t (Rejected e) ↔ rejectsFirst p1 p2 t e.
Proof.
  unfold rejectsFirst. split.
  - destruct p1 as [|t1 [a|e1]], p2 as [|t2 [b|e2]]; simpl; try done;
      try (intros [= <- <-]; (left + right); split; [done|]; by intros ?? [=]).
    case_decide; intros [= <- <-]; [left|right]; (split; [done|]);
      intros ?? [= <- <-]; lia.
  - intros [[-> Hle]|[-> Hlt]].
    + destruct p2 as [|t2 [b|e2]]; simpl; try done.
      case_decide as Hd; [done|]. specialize (Hle _ _ eq_refl). lia.
    + destruct p1 as [|t1 [a|e1]]; simpl; try done.
      case_decide as Hd; [|done]. specialize (Hlt _ _ eq_refl). lia.
Qed.

Lemma rejectsAlone_first_l (p1 : Promise A) (p2 : Promise B) t e :
  rejectsAlone p1 p2 t e → rejectsFirst p1 p2 t e.
Proof. intros [-> Hno]. left. split; [done|]. intros t2 e2 ->. by destruct (Hno t2 e2). Qed.

Lemma rejectsAlone_first_r (p1 : Promise A) (p2 : Promise B) t e :
  rejectsAlone p2 p1 t e → rejectsFirst p1 p2 t e.
Proof. intros [-> Hno]. right. split; [done|]. intros t1 e1 ->. by destruct (Hno t1 e1). Qed.

Lemma Promise_all2_pending_inv (p1 : Promise A) (p2 : Promise B) :
  Promise_all2 p1 p2 = Pending →
  (∀ t e, p1 ≠ Settled t (Rejected e)) ∧ (∀ t e, p2 ≠ Settled t (Rejected e))
  ∧ (p1 = Pending ∨ p2 = Pending).
Proof.
  destruct p1 as [|t1 [a|e1]], p2 as [|t2 [b|e2]]; simpl; try done; try case_decide;
    try done; intros _; naive_solver.
Qed.

End PromiseFacts.

Section PromiseAllFacts.
Context {A : Type}.

Lemma firstRejection_None (ps : list (Promise A)) :
  firstRejection ps = None ↔ ∀ t e, Settled t (Rejected e) ∉ ps.
Proof.
  induction ps as [|p ps IH]; simpl.
  - split; [|done]. intros _ t e. apply not_elem_of_nil.
  - destruct p as [|t [a|e]].
    + rewrite IH. split.
      * intros Hno t e [?|?]%elem_of_cons; [done|]. by apply (Hno t e).
      * intros Hno t e Hin. apply (Hno t e). by right.
    + rewrite IH. split.
      * intros Hno t' e [?|?]%elem_of_cons; [done|]. by apply (Hno t' e).
      * intros Hno t' e Hin. apply (Hno t' e). by right.
    + split.
      * destruct (firstRejection ps) as [[t' e']|]; [by case_decide|done].
      * intros Hno. destruct (Hno t e). by left.
Qed.

Lemma firstRejection_Some (ps : list (Promise A)) t e :
  firstRejection ps = Some (t, e) →
  Settled t (Rejected e) ∈ ps ∧ ∀ t' e', Settled t' (Rejected e') ∈ ps → t ≤ t'.
Proof.
  revert t e. induction ps as [|p ps IH]; simpl; intros t e; [done|].
  destruct p as [|t0 [a|e0]].
  - intros [Hin Hmin]%IH. split; [by right|].
    intros t' e' [?|?]%elem_of_cons; [done|eauto].
  - intros [Hin Hmin]%IH. split; [by right|].
    intros t' e' [?|?]%elem_of_cons; [done|eauto].
  - destruct (firstRejection ps) as [[t1 e1]|] eqn:Hf.
    + destruct (IH _ _ eq_refl) as [Hin Hmin].
      case_decide; intros [= <- <-].
      * split; [by left|]. intros t' e' [[= -> _]|Hin']%elem_of_cons; [done|].
        specialize (Hmin _ _ Hin'). lia.
      * split; [by right|]. intros t' e' [[= -> _]|Hin']%elem_of_cons; [lia|eauto].
    + intros [= <- <-]. split; [by left|].
      intros t' e' [[= -> _]|Hin']%elem_of_cons; [done|].
      by destruct (proj1 (firstRejection_None ps) Hf t' e').
Qed.

Lemma resolvedValues_Some (ps : list (Promise A)) vs :
  resolvedValues ps = Some vs ↔ Forall2 (λ p v, ∃ t, p = Settled t (Resolved v)) ps vs.
Proof.
  revert vs. induction ps as [|p ps IH]; simpl; intros vs.
  - split; [by intros [= <-]; constructor|]. by intros ->%Forall2_nil_inv_l.
  - split.
    + destruct p as [|t [a|e]]; try done.
      destruct (resolvedValues ps) as [vs'|] eqn:Hr; [|done].
      intros [= <-]. constructor; [eauto|]. by apply IH.
    + intros (v & vs' & [t ->] & Hall & ->)%Forall2_cons_inv_l.
      apply IH in Hall. by rewrite Hall.
Qed.

Lemma resolvedValues_firstRejection (ps : list (Promise A)) vs :
  resolvedValues ps = Some vs → firstRejection ps = None.
Proof.
  intros Hall%resolvedValues_Some. apply firstRejection_None. intros t e Hin.
  apply list_elem_of_lookup in Hin as [i Hi].
  destruct (Forall2_lookup_l _ _ _ _ _ Hall Hi) as (v & _ & t' & [=]).
Qed.

Lemma latest_ge now (ps : list (Promise A)) :
  now ≤ latest now ps ∧ ∀ t o, Settled t o ∈ ps → t ≤ latest now ps.
Proof.
  induction ps as [|p ps [IH1 IH2]]; simpl.
  - split; [done|]. by intros t o ?%elem_of_nil.
  - destruct p as [|t0 o0].
    + split; [done|]. intros t o [?|?]%elem_of_cons; [done|eauto].
    + split; [lia|]. intros t o [[= -> ->]|Hin]%elem_of_cons; [lia|].
      specialize (IH2 _ _ Hin). lia.
Qed.

(** When [Promise.all] over a list is fulfilled, rejects, or never
    settles. *)
Lemma Promise_all_resolved now (ps : list (Promise A)) t vs :
  Promise_all now ps = Settled t (Resolved vs) ↔
  resolvedValues ps = Some vs ∧ t = latest now ps.
Proof.
  unfold Promise_all. split.
  - destruct (firstRejection ps) as [[t' e']|]; [done|].
    destruct (resolvedValues ps); [|done]. by intros [= <- <-].
  - intros [Hr ->]. by rewrite (resolvedValues_firstRejection _ _ Hr), Hr.
Qed.

Lemma Promise_all_rejected now (ps : list (Promise A)) t e :
  Promise_all now ps = Settled t (Rejected e) ↔ firstRejection ps = Some (t, e).
Proof.
  unfold Promise_all. destruct (firstRejection ps) as [[t' e']|].
  - split; by intros [= -> ->].
  - split; [|done]. by destruct (resolvedValues ps).
Qed.

End PromiseAllFacts.

(** ** Properties of the pipeline-server configuration *)

Module ConfigurePipelinesServerFacts.
Import ConfigurePipelinesServer.

Section Secrets.
Context `{Constants}.
Variable cluster : Cluster.

Lemma createDatabaseSecret_log db projectName dryRun now c :
  c ∈ (createDatabaseSecret cluster db projectName dryRun now).2 →
  call_dryRun c = dryRun ∧ call_at c = now.
Proof.
  unfold createDatabaseSecret, createSecret.
  destruct (useDefault db); simpl; [by intros ?%elem_of_nil|].
  by intros ->%list_elem_of_singleton.
Qed.

Lemma createObjectStorageSecret_log os projectName dryRun now c :
  c ∈ (createObjectStorageSecret cluster os projectName dryRun now).2 →
  call_dryRun c = dryRun ∧ call_at c = now.
Proof.
  unfold createObjectStorageSecret, createSecret. simpl.
  by intros ->%list_elem_of_singleton.
Qed.

(** The shape of [createSecrets], one equation per outcome of the dry
    runs. *)
Lemma createSecrets_unfold config projectName now :
  createSecrets cluster config projectName now =
  let d1 := createDatabaseSecret cluster (database config) projectName true now in
  let o1 := createObjectStorageSecret cluster (objectStorage config) projectName true now in
  match Promise_all2 d1.1 o1.1 with
  | Settled t (Resolved _) =>
      let d2 := createDatabaseSecret cluster (database config) projectName false t in
      let o2 := createObjectStorageSecret cluster (objectStorage config) projectName false t in
      (Promise_all2 d2.1 o2.1, d1.2 ++ o1.2 ++ d2.2 ++ o2.2)
  | Settled t (Rejected e) => (Settled t (Rejected e), d1.2 ++ o1.2)
  | Pending => (Pending, d1.2 ++ o1.2)
  end.
Proof.
  unfold createSecrets.
  destruct (createDatabaseSecret cluster (database config) projectName true now) as [d1 l1].
  destruct (createObjectStorageSecret cluster (objectStorage config) projectName true now) as [o1 l2].
  simpl. destruct (Promise_all2 d1 o1) as [|t [v|e]]; try done.
  destruct (createDatabaseSecret cluster (database config) projectName false t) as [d2 l3].
  by destruct (createObjectStorageSecret cluster (objectStorage config) projectName false t) as [o2 l4].
Qed.

(** C1. When the dry run of the database secret or of the object-storage
    secret rejects, every request [createSecrets] sends is a dry run; and
    in every run, a request with [dryRun = false] is sent only once both
    dry-run creations have been fulfilled, at an instant that is not
    earlier than either fulfilment. *)
Theorem createSecrets_real_only_after_dry_runs config projectName now :
  let log := (createSecrets cluster config projectName now).2 in
  let d1 := (createDatabaseSecret cluster (database config) projectName true now).1 in
  let o1 := (createObjectStorageSecret cluster (objectStorage config) projectName true now).1 in
  ((∃ t e, d1 = Settled t (Rejected e)) ∨ (∃ t e, o1 = Settled t (Rejected e)) →
   ∀ c, c ∈ log → call_dryRun c = true)
  ∧ (∀ c, c ∈ log → call_dryRun c = false →
     ∃ t1 v1 t2 v2, d1 = Settled t1 (Resolved v1) ∧ o1 = Settled t2 (Resolved v2)
                    ∧ t1 ≤ call_at c ∧ t2 ≤ call_at c).
Proof.
  intros log d1 o1.
  assert (Hreal : ∀ c, c ∈ log → call_dryRun c = false →
     ∃ t1 v1 t2 v2, d1 = Settled t1 (Resolved v1) ∧ o1 = Settled t2 (Resolved v2)
                    ∧ t1 ≤ call_at c ∧ t2 ≤ call_at c).
  { subst log d1 o1. rewrite createSecrets_unfold. cbv zeta.
    destruct (Promise_all2 _ _) as [|t [v|e]] eqn:Hall; cbn [snd]; intros c Hc Hdry.
    - apply elem_of_app in Hc as [Hc|Hc].
      + apply createDatabaseSecret_log in Hc as [? _]. congruence.
      + apply createObjectStorageSecret_log in Hc as [? _]. congruence.
    - apply Promise_all2_resolved_inv in Hall as (t1 & a & t2 & b & -> & -> & -> & _).
      exists t1, a, t2, b. split; [done|]. split; [done|].
      rewrite !elem_of_app in Hc. destruct Hc as [Hc|[Hc|[Hc|Hc]]].
      + apply createDatabaseSecret_log in Hc as [? _]. congruence.
      + apply createObjectStorageSecret_log in Hc as [? _]. congruence.
      + apply createDatabaseSecret_log in Hc as [_ ->]. lia.
      + apply createObjectStorageSecret_log in Hc as [_ ->]. lia.
    - apply elem_of_app in Hc as [Hc|Hc].
      + apply createDatabaseSecret_log in Hc as [? _]. congruence.
      + apply createObjectStorageSecret_log in Hc as [? _]. congruence. }
  split; [|done].
  intros Hrej c Hc. destruct (call_dryRun c) eqn:Hdry; [done|].
  destruct (Hreal c Hc Hdry) as (t1 & v1 & t2 & v2 & Hd & Ho & _).
  destruct Hrej as [(t & e & Hr)|(t & e & Hr)]; congruence.
Qed.

(** When [createSecrets] is fulfilled, and with what. *)
Lemma createSecrets_resolved config projectName now t resp :
  (createSecrets cluster config projectName now).1 = Settled t (Resolved resp) ↔
  ∃ t1 v1 t2 v2 ta tb,
    (createDatabaseSecret cluster (database config) projectName true now).1
      = Settled t1 (Resolved v1)
    ∧ (createObjectStorageSecret cluster (objectStorage config) projectName true now).1
      = Settled t2 (Resolved v2)
    ∧ (createDatabaseSecret cluster (database config) projectName false (t1 `max` t2)).1
      = Settled ta (Resolved resp.1)
    ∧ (createObjectStorageSecret cluster (objectStorage config) projectName false (t1 `max` t2)).1
      = Settled tb (Resolved resp.2)
    ∧ t = ta `max` tb.
Proof.
  rewrite createSecrets_unfold. cbv zeta.
  destruct (Promise_all2 _ _) as [|T [v|e']] eqn:Hall; cbn [fst].
  - split; [done|]. intros (t1 & v1 & t2 & v2 & ? & ? & Hd & Ho & _).
    rewrite Hd, Ho in Hall. done.
  - apply Promise_all2_resolved_inv in Hall as (t1 & a & t2 & b & Hd & Ho & -> & _).
    split.
    + intros (ta & x & tb & y & Hx & Hy & -> & ->)%Promise_all2_resolved_inv.
      by exists t1, a, t2, b, ta, tb.
    + intros (t1' & v1 & t2' & v2 & ta & tb & Hd' & Ho' & Hx & Hy & ->).
      rewrite Hd in Hd'. rewrite Ho in Ho'. simplify_eq.
      rewrite Hx, Hy. simpl. by destruct resp.
  - split; [done|]. intros (t1 & v1 & t2 & v2 & ? & ? & Hd & Ho & _).
    rewrite Hd, Ho in Hall. done.
Qed.

(** When [createSecrets] rejects, and with what. *)
Lemma createSecrets_rejected config projectName now t e :
  (createSecrets cluster config projectName now).1 = Settled t (Rejected e) ↔
  rejectsFirst
    (createDatabaseSecret cluster (database config) projectName true now).1
    (createObjectStorageSecret cluster (objectStorage config) projectName true now).1 t e
  ∨ ∃ t1 v1 t2 v2,
      (createDatabaseSecret cluster (database config) projectName true now).1
        = Settled t1 (Resolved v1)
      ∧ (createObjectStorageSecret cluster (objectStorage config) projectName true now).1
        = Settled t2 (Resolved v2)
      ∧ rejectsFirst
          (createDatabaseSecret cluster (database config) projectName false (t1 `max` t2)).1
          (createObjectStorageSecret cluster (objectStorage config) projectName false (t1 `max` t2)).1
          t e.
Proof.
  rewrite createSecrets_unfold. cbv zeta.
  destruct (Promise_all2 _ _) as [|T [v|e']] eqn:Hall; cbn [fst].
  - split; [done|]. intros [Hf|(t1 & v1 & t2 & v2 & Hd & Ho & _)].
    + apply Promise_all2_rejected in Hf. congruence.
    + rewrite Hd, Ho in Hall. done.
  - apply Promise_all2_resolved_inv in Hall as (t1 & a & t2 & b & Hd & Ho & -> & _).
    rewrite Promise_all2_rejected. split.
    + intros Hf. right. by exists t1, a, t2, b.
    + intros [Hf|(t1' & v1 & t2' & v2 & Hd' & Ho' & Hf)].
      * destruct Hf as [[Hf _]|[Hf _]]; congruence.
      * rewrite Hd in Hd'. rewrite Ho in Ho'. by simplify_eq.
  - split.
    + intros [= -> ->]. left. by apply Promise_all2_rejected.
    + intros [Hf|(t1 & v1 & t2 & v2 & Hd & Ho & _)].
      * apply Promise_all2_rejected in Hf. congruence.
      * rewrite Hd, Ho in Hall. done.
Qed.

(** C3, as amended. [createSecrets] is fulfilled exactly when both dry
    runs and then both real creations are fulfilled, and then with the pair
    of the results of the real creations. It rejects exactly when a dry run
    rejects, or both dry runs are fulfilled and a real creation rejects; the
    error is that of the creation of that phase which rejects first, hence
    that of the rejecting creation when the other one of its phase does not
    reject. *)
Theorem createSecrets_outcome config projectName now :
  let d1 := (createDatabaseSecret cluster (database config) projectName true now).1 in
  let o1 := (createObjectStorageSecret cluster (objectStorage config) projectName true now).1 in
  let d2 T := (createDatabaseSecret cluster (database config) projectName false T).1 in
  let o2 T := (createObjectStorageSecret cluster (objectStorage config) projectName false T).1 in
  let r := (createSecrets cluster config projectName now).1 in
  (∀ t resp, r = Settled t (Resolved resp) ↔
     ∃ t1 v1 t2 v2 ta tb,
       d1 = Settled t1 (Resolved v1) ∧ o1 = Settled t2 (Resolved v2)
       ∧ d2 (t1 `max` t2) = Settled ta (Resolved resp.1)
       ∧ o2 (t1 `max` t2) = Settled tb (Resolved resp.2)
       ∧ t = ta `max` tb)
  ∧ (∀ t e, r = Settled t (Rejected e) ↔
       rejectsFirst d1 o1 t e
       ∨ ∃ t1 v1 t2 v2,
           d1 = Settled t1 (Resolved v1) ∧ o1 = Settled t2 (Resolved v2)
           ∧ rejectsFirst (d2 (t1 `max` t2)) (o2 (t1 `max` t2)) t e)
  ∧ (∀ t e, rejectsAlone d1 o1 t e ∨ rejectsAlone o1 d1 t e →
       r = Settled t (Rejected e))
  ∧ (∀ t1 v1 t2 v2 t e,
       d1 = Settled t1 (Resolved v1) → o1 = Settled t2 (Resolved v2) →
       rejectsAlone (d2 (t1 `max` t2)) (o2 (t1 `max` t2)) t e
       ∨ rejectsAlone (o2 (t1 `max` t2)) (d2 (t1 `max` t2)) t e →
       r = Settled t (Rejected e)).
Proof.
  intros d1 o1 d2 o2 r. subst d1 o1 d2 o2 r. cbv beta.
  split; [|split; [|split]].
  - apply createSecrets_resolved.
  - apply createSecrets_rejected.
  - intros t e Halone. apply createSecrets_rejected. left.
    destruct Halone; [by apply rejectsAlone_first_l|by apply rejectsAlone_first_r].
  - intros t1 v1 t2 v2 t e Hd Ho Halone. apply createSecrets_rejected. right.
    exists t1, v1, t2, v2. split; [done|]. split; [done|].
    destruct Halone; [by apply rejectsAlone_first_l|by apply rejectsAlone_first_r].
Qed.

(** C2. With [useDefault = true], [createDatabaseSecret] is fulfilled with
    [undefined] at once and sends no request; every request of
    [createSecrets] is one of [createObjectStorageSecret]; the secrets
    response has no database secret, and the spec assembled from it, also
    through [configureDSPipelineResourceSpec], has no database block. The
    spec is assembled whenever the form has an endpoint. *)
Theorem useDefault_omits_externalDB config projectName :
  useDefault (database config) = true →
  (∀ dryRun now,
     createDatabaseSecret cluster (database config) projectName dryRun now
     = (Settled now (Resolved None), []))
  ∧ (∀ now c, c ∈ (createSecrets cluster config projectName now).2 →
       ∃ dryRun t,
         c ∈ (createObjectStorageSecret cluster (objectStorage config) projectName dryRun t).2)
  ∧ (∀ now t resp,
       (createSecrets cluster config projectName now).1 = Settled t (Resolved resp) →
       resp.1 = None)
  ∧ (∀ now t spec,
       (configureDSPipelineResourceSpec cluster config projectName now).1
       = Settled t (Resolved spec) →
       spec_database spec = None)
  ∧ (∀ os spec,
       createDSPipelineResourceSpec config (None, os) = Normal spec →
       spec_database spec = None)
  ∧ (∀ os endpoint,
       dataEntryToRecord (newValue (objectStorage config)) !! js "AWS_S3_ENDPOINT"
       = Some endpoint →
       ∃ spec, createDSPipelineResourceSpec config (None, os) = Normal spec
               ∧ spec_database spec = None).
Proof.
  intros Hdef.
  assert (Hdb : ∀ dryRun now,
     createDatabaseSecret cluster (database config) projectName dryRun now
     = (Settled now (Resolved None), [])).
  { intros. unfold createDatabaseSecret. by rewrite Hdef. }
  assert (Hresp : ∀ now t resp,
       (createSecrets cluster config projectName now).1 = Settled t (Resolved resp) →
       resp.1 = None).
  { intros now t resp (t1 & v1 & t2 & v2 & ta & tb & _ & _ & Hd & _)%createSecrets_resolved.
    rewrite Hdb in Hd. by injection Hd. }
  assert (Hspec : ∀ os spec,
       createDSPipelineResourceSpec config (None, os) = Normal spec →
       spec_database spec = None).
  { intros os spec. unfold createDSPipelineResourceSpec.
    destruct (dataEntryToRecord (newValue (objectStorage config)) !! js "AWS_S3_ENDPOINT");
      [|done].
    destruct (matchEndpoint _). by intros [= <-]. }
  split; [done|]. split; [|split; [done|split; [|split; [done|]]]].
  - intros now c. rewrite createSecrets_unfold. cbv zeta. rewrite !Hdb.
    destruct (Promise_all2 _ _) as [|T [v|e]]; cbn [fst snd app]; eauto.
    rewrite Hdb. cbn [snd app]. intros [?|?]%elem_of_app; eauto.
  - intros now t spec. unfold configureDSPipelineResourceSpec.
    destruct (createSecrets cluster config projectName now) as [p log] eqn:Hcs.
    cbn [fst]. destruct p as [|t' [resp|e]]; simpl; try done.
    destruct (createDSPipelineResourceSpec config resp) as [spec'|e] eqn:Hc; [|done].
    intros [= -> ->]. specialize (Hresp now t resp). rewrite Hcs in Hresp.
    destruct resp as [db os]. simpl in Hresp. rewrite (Hresp eq_refl) in Hc. eauto.
  - intros os endpoint Hep. unfold createDSPipelineResourceSpec. rewrite Hep.
    destruct (matchEndpoint endpoint). eauto.
Qed.

(** C7. With [useDefault = false], [createDatabaseSecret] sends one request
    for a secret that stores the password of the form under the fixed key.
    When [createSecrets] is fulfilled, that request was sent with
    [dryRun = false], the cluster answered it with a secret, and the spec
    assembled from the response, also through
    [configureDSPipelineResourceSpec], has an [externalDB] whose
    [passwordSecret] names that secret and the fixed key. *)
Theorem external_database_passwordSecret config projectName :
  useDefault (database config) = false →
  let databaseRecord := dataEntryToRecord (db_value (database config)) in
  let dbSecret :=
    assembleSecret projectName
      {[ ExternalDatabaseSecret_KEY := databaseRecord !! DatabaseConnectionKeys_PASSWORD ]}
      (js "generic") ExternalDatabaseSecret_NAME in
  let named secret spec :=
    ∃ db, spec_database spec = Some db
          ∧ passwordSecret (externalDB db)
            = {| passwordSecret_key := ExternalDatabaseSecret_KEY;
                 passwordSecret_name := metadata_name secret |} in
  (∀ dryRun now,
     (createDatabaseSecret cluster (database config) projectName dryRun now).2
     = [{| call_secret := dbSecret; call_dryRun := dryRun; call_at := now |}])
  ∧ (∀ now t resp,
       (createSecrets cluster config projectName now).1 = Settled t (Resolved resp) →
       ∃ T d secret,
         {| call_secret := dbSecret; call_dryRun := false; call_at := T |}
           ∈ (createSecrets cluster config projectName now).2
         ∧ cluster dbSecret false T = Answer d (Resolved secret)
         ∧ resp.1 = Some {| ref_key := ExternalDatabaseSecret_KEY;
                            ref_name := metadata_name secret |}
         ∧ (∀ spec, createDSPipelineResourceSpec config resp = Normal spec →
              named secret spec)
         ∧ (∀ t' spec,
              (configureDSPipelineResourceSpec cluster config projectName now).1
              = Settled t' (Resolved spec) →
              named secret spec)).
Proof.
  intros Hext databaseRecord dbSecret named.
  assert (Hlog : ∀ dryRun now,
     (createDatabaseSecret cluster (database config) projectName dryRun now).2
     = [{| call_secret := dbSecret; call_dryRun := dryRun; call_at := now |}]).
  { intros. unfold createDatabaseSecret. by rewrite Hext. }
  split; [done|].
  intros now t resp Hres.
  pose proof Hres as (t1 & v1 & t2 & v2 & ta & tb & Hd1 & Ho1 & Hd2 & Ho2 & ->)%createSecrets_resolved.
  assert (Hall : Promise_all2
            (createDatabaseSecret cluster (database config) projectName true now).1
            (createObjectStorageSecret cluster (objectStorage config) projectName true now).1
          = Settled (t1 `max` t2) (Resolved (v1, v2))) by by rewrite Hd1, Ho1.
  assert (∃ d secret, cluster dbSecret false (t1 `max` t2) = Answer d (Resolved secret)
            ∧ resp.1 = Some {| ref_key := ExternalDatabaseSecret_KEY;
                               ref_name := metadata_name secret |})
    as (d & secret & Hcl & Hr1).
  { assert (Heq : (createDatabaseSecret cluster (database config) projectName false
                      (t1 `max` t2)).1
             = Promise_then (promiseOf (t1 `max` t2) (cluster dbSecret false (t1 `max` t2)))
                 (λ secret, Normal (Some {| ref_key := ExternalDatabaseSecret_KEY;
                                            ref_name := metadata_name secret |}))).
    { unfold createDatabaseSecret. by rewrite Hext. }
    rewrite Heq in Hd2.
    destruct (cluster dbSecret false (t1 `max` t2)) as [|d [secret|e]]; simpl in Hd2;
      try done.
    injection Hd2 as _ <-. eauto. }
  assert (Hspec : ∀ spec, createDSPipelineResourceSpec config resp = Normal spec →
                          named secret spec).
  { intros spec. destruct resp as [db os]. simpl in Hr1. subst db.
    unfold createDSPipelineResourceSpec.
    destruct (dataEntryToRecord (newValue (objectStorage config)) !! js "AWS_S3_ENDPOINT");
      [|done].
    destruct (matchEndpoint _). intros [= <-]. simpl. eexists. split; [done|]. done. }
  exists (t1 `max` t2), d, secret. split; [|split; [done|split; [done|split; [done|]]]].
  - rewrite createSecrets_unfold. cbv zeta. rewrite Hall. cbn [snd].
    rewrite !Hlog. set_solver.
  - intros t' spec. unfold configureDSPipelineResourceSpec.
    destruct (createSecrets cluster config projectName now) as [p log] eqn:Hcs.
    cbn [fst] in *. subst p. simpl.
    destruct (createDSPipelineResourceSpec config resp) as [spec'|e] eqn:Hc; [|done].
    intros [= _ ->]. auto.
Qed.

End Secrets.

Section SpecAssembly.
Context `{Constants}.

Lemma matchEndpoint_scheme sch rest :
  sch ≠ [] → forallb isWordChar sch = true →
  matchEndpoint (sch ++ js "://" ++ rest)
  = (Some sch, takeWhile (λ c, negb (isLineTerminator c)) rest).
Proof.
  intros Hne Hw. unfold matchEndpoint.
  change (js "://" ++ rest) with (58%N :: 47%N :: 47%N :: rest).
  rewrite takeWhile_app_stop, dropWhile_app_stop by done.
  by destruct sch.
Qed.

Lemma matchEndpoint_bare s :
  (¬ ∃ w rest, w ≠ [] ∧ forallb isWordChar w = true ∧ s = w ++ js "://" ++ rest) →
  matchEndpoint s = (None, takeWhile (λ c, negb (isLineTerminator c)) s).
Proof.
  intros Hno. unfold matchEndpoint.
  destruct (takeWhile isWordChar s) as [|c w] eqn:Hw; [done|].
  destruct (dropWhile isWordChar s) as [|c1 [|c2 [|c3 rest]]] eqn:Hd;
    try (by repeat case_match).
  destruct (decide (c1 = 58%N)) as [->|]; [|by not_code_unit c1].
  destruct (decide (c2 = 47%N)) as [->|]; [|by not_code_unit c2].
  destruct (decide (c3 = 47%N)) as [->|]; [|by not_code_unit c3].
  destruct Hno. exists (c :: w), rest. split; [done|]. split.
  - rewrite <- Hw. apply takeWhile_forallb.
  - rewrite <- Hw. change (js "://" ++ rest) with (58%N :: 47%N :: 47%N :: rest).
    rewrite <- Hd. symmetry. apply takeWhile_dropWhile.
Qed.

Lemma stripTrailingSlash_app h : stripTrailingSlash (h ++ js "/") = h.
Proof.
  unfold stripTrailingSlash. change (js "/") with [47%N].
  rewrite reverse_app. simpl. apply reverse_involutive.
Qed.

Lemma orElse_nil s : orElse s [] = s.
Proof. by destruct s. Qed.

Lemma takeWhile_host_slash h :
  forallb (λ c, negb (isLineTerminator c)) h = true →
  takeWhile (λ c, negb (isLineTerminator c)) (h ++ js "/") = h ++ js "/".
Proof.
  intros Hh. apply takeWhile_all. rewrite forallb_app, Hh. done.
Qed.

(** C4, as amended. Let the host contain no line terminator. For the
    endpoint [scheme://host/], where the scheme is a word, the spec has the
    host without the trailing slash and the given scheme; for the endpoint
    [host/] without a scheme prefix, it has the host and the scheme
    [https]; the scheme is [https] for every endpoint without a scheme
    prefix. The endpoint [s3.amazonaws.com/] with the bucket [my-bucket]
    gives the host [s3.amazonaws.com], the scheme [https], the bucket
    [my-bucket] and the region [us-east-2]. *)
Theorem endpoint_scheme_and_host config resp :
  let awsRecord := dataEntryToRecord (newValue (objectStorage config)) in
  let parsed (h sch : jsstring) :=
    ∃ spec, createDSPipelineResourceSpec config resp = Normal spec
            ∧ host (externalStorage (spec_objectStorage spec)) = h
            ∧ scheme (externalStorage (spec_objectStorage spec)) = sch in
  (∀ sch h,
     sch ≠ [] → forallb isWordChar sch = true →
     forallb (λ c, negb (isLineTerminator c)) h = true →
     awsRecord !! js "AWS_S3_ENDPOINT" = Some (sch ++ js "://" ++ h ++ js "/") →
     parsed h sch)
  ∧ (∀ h,
       forallb (λ c, negb (isLineTerminator c)) h = true →
       (¬ ∃ w rest, w ≠ [] ∧ forallb isWordChar w = true
                    ∧ h ++ js "/" = w ++ js "://" ++ rest) →
       awsRecord !! js "AWS_S3_ENDPOINT" = Some (h ++ js "/") →
       parsed h (js "https"))
  ∧ (∀ endpoint,
       (¬ ∃ w rest, w ≠ [] ∧ forallb isWordChar w = true
                    ∧ endpoint = w ++ js "://" ++ rest) →
       awsRecord !! js "AWS_S3_ENDPOINT" = Some endpoint →
       ∃ spec, createDSPipelineResourceSpec config resp = Normal spec
               ∧ scheme (externalStorage (spec_objectStorage spec)) = js "https")
  ∧ (awsRecord !! js "AWS_S3_ENDPOINT" = Some (js "s3.amazonaws.com/") →
     awsRecord !! js "AWS_S3_BUCKET" = Some (js "my-bucket") →
     ∃ spec, createDSPipelineResourceSpec config resp = Normal spec
             ∧ host (externalStorage (spec_objectStorage spec)) = js "s3.amazonaws.com"
             ∧ scheme (externalStorage (spec_objectStorage spec)) = js "https"
             ∧ bucket (externalStorage (spec_objectStorage spec)) = js "my-bucket"
             ∧ region (externalStorage (spec_objectStorage spec)) = js "us-east-2").
Proof.
  intros awsRecord parsed. subst awsRecord parsed. cbv beta.
  destruct resp as [db os]. split; [|split; [|split]].
  - intros sch h Hne Hw Hh Hep. unfold createDSPipelineResourceSpec. rewrite Hep.
    rewrite matchEndpoint_scheme, takeWhile_host_slash by done.
    eexists. split; [done|]. simpl.
    rewrite stripTrailingSlash_app, orElse_nil. by destruct sch.
  - intros h Hh Hbare Hep. unfold createDSPipelineResourceSpec. rewrite Hep.
    rewrite matchEndpoint_bare, takeWhile_host_slash by done.
    eexists. split; [done|]. simpl.
    by rewrite stripTrailingSlash_app, orElse_nil.
  - intros endpoint Hbare Hep. unfold createDSPipelineResourceSpec. rewrite Hep.
    rewrite matchEndpoint_bare by done. eexists. split; [done|]. done.
  - intros Hep Hb. unfold createDSPipelineResourceSpec. rewrite Hep, Hb.
    eexists. split; [reflexivity|]. by vm_compute.
Qed.

(** Without an endpoint in the form, the assembly of the spec throws. *)
Lemma createDSPipelineResourceSpec_no_endpoint config resp :
  dataEntryToRecord (newValue (objectStorage config)) !! js "AWS_S3_ENDPOINT" = None →
  ∃ m, createDSPipelineResourceSpec config resp = Throw (TypeError m).
Proof.
  intros Hep. destruct resp as [db os]. unfold createDSPipelineResourceSpec.
  rewrite Hep. eauto.
Qed.

(** With an endpoint in the form, the spec is assembled. *)
Lemma createDSPipelineResourceSpec_endpoint config resp endpoint :
  dataEntryToRecord (newValue (objectStorage config)) !! js "AWS_S3_ENDPOINT"
  = Some endpoint →
  ∃ spec, createDSPipelineResourceSpec config resp = Normal spec.
Proof.
  intros Hep. destruct resp as [db os]. unfold createDSPipelineResourceSpec.
  rewrite Hep. destruct (matchEndpoint endpoint). eauto.
Qed.

End SpecAssembly.

Section Validation.
Variable PIPELINE_AWS_FIELDS : list FieldOptions.

Lemma dropWhile_nil {A} (p : A → bool) l : dropWhile p l = [] ↔ forallb p l = true.
Proof.
  induction l as [|x l IH]; simpl; [done|].
  destruct (p x); simpl; [done|]. split; done.
Qed.

(** A string is empty after trimming exactly when it consists of white
    space and line terminators. *)
Lemma trim_nil s : trim s = [] ↔ forallb isTrimmed s = true.
Proof.
  unfold trim. split.
  - intros Hr. apply dropWhile_nil.
    destruct (dropWhile isTrimmed s) as [|x r] eqn:Hd; [done|].
    apply dropWhile_head in Hd as Hx.
    apply (f_equal reverse) in Hr. rewrite reverse_involutive in Hr.
    change (reverse []) with (@nil N) in Hr.
    apply dropWhile_nil in Hr. rewrite reverse_cons, forallb_app in Hr.
    simpl in Hr. rewrite Hx in Hr. by rewrite andb_false_r in Hr.
  - intros Hs. apply dropWhile_nil in Hs. by rewrite Hs.
Qed.

Lemma requiredKey_elem_of k :
  k ∈ field_key <$> filter (λ field, isRequired field = true) PIPELINE_AWS_FIELDS
  ↔ requiredKey PIPELINE_AWS_FIELDS k.
Proof.
  unfold requiredKey. rewrite list_elem_of_fmap. split.
  - intros (f & -> & [Hr Hf]%list_elem_of_filter). eauto.
  - intros (f & Hf & Hr & <-). exists f. split; [done|]. by apply list_elem_of_filter.
Qed.

(** C5, as amended. [objectStorageIsValid] is false exactly when some
    entry of the list has the key of a required field and a value that is
    empty after trimming. A required field without an entry does not make
    it false, and it is true whenever no entry has the key of a required
    field. *)
Theorem objectStorageIsValid_false entries :
  (objectStorageIsValid PIPELINE_AWS_FIELDS entries = false ↔
   ∃ e, e ∈ entries ∧ requiredKey PIPELINE_AWS_FIELDS (key e) ∧ trim (value e) = [])
  ∧ ((∀ e, e ∈ entries → ¬ requiredKey PIPELINE_AWS_FIELDS (key e)) →
     objectStorageIsValid PIPELINE_AWS_FIELDS entries = true)
  ∧ (∀ f, f ∈ PIPELINE_AWS_FIELDS → isRequired f = true →
     (∀ e, e ∈ entries → key e ≠ field_key f) →
     (∀ e, e ∈ entries → requiredKey PIPELINE_AWS_FIELDS (key e) → trim (value e) ≠ []) →
     objectStorageIsValid PIPELINE_AWS_FIELDS entries = true).
Proof.
  assert (Hiff : objectStorageIsValid PIPELINE_AWS_FIELDS entries = false ↔
   ∃ e, e ∈ entries ∧ requiredKey PIPELINE_AWS_FIELDS (key e) ∧ trim (value e) = []).
  { unfold objectStorageIsValid. induction entries as [|e l IH]; simpl.
    - split; [done|]. by intros (e & ?%elem_of_nil & _).
    - rewrite andb_false_iff, IH. split.
      + intros [He|(e' & ? & ?)].
        * exists e. split; [left|]. case_bool_decide as Hk; [|done].
          apply requiredKey_elem_of in Hk. split; [done|]. by destruct (trim (value e)).
        * exists e'. split; [by right|done].
      + intros (e' & [->|?]%elem_of_cons & Hk & Ht).
        * left. apply requiredKey_elem_of in Hk. rewrite bool_decide_eq_true_2 by done.
          by rewrite Ht.
        * right. eauto. }
  split; [done|]. split.
  - intros Hno. apply not_false_iff_true. rewrite Hiff.
    intros (e & He & Hk & _). by apply (Hno e).
  - intros f Hf Hr _ Hall. apply not_false_iff_true. rewrite Hiff.
    intros (e & He & Hk & Ht). by apply (Hall e).
Qed.

End Validation.

(** *** Further properties: records and secrets *)

Section Records.

Lemma dataEntryToRecord_snoc l e :
  dataEntryToRecord (l ++ [e]) = <[key e := value e]> (dataEntryToRecord l).
Proof. unfold dataEntryToRecord. by rewrite foldl_app. Qed.

(** A key is bound in the record to the value of the last entry that has
    this key. *)
Lemma dataEntryToRecord_lookup_Some l k v :
  dataEntryToRecord l !! k = Some v ↔
  ∃ l1 l2, l = l1 ++ {| key := k; value := v |} :: l2 ∧ ∀ e, e ∈ l2 → key e ≠ k.
Proof.
  induction l as [|e l IH] using rev_ind.
  - split; [done|]. intros (l1 & l2 & Hl & _). by destruct l1.
  - rewrite dataEntryToRecord_snoc. destruct (decide (key e = k)) as [Hk|Hk].
    + rewrite <- Hk, lookup_insert_eq. split.
      * intros [= <-]. exists l, []. split; [by destruct e|]. by intros ? ?%elem_of_nil.
      * intros (l1 & l2 & Hl & Hl2). induction l2 as [|y l2 _] using rev_ind.
        -- apply app_inj_tail in Hl as [_ ->]. done.
        -- rewrite app_comm_cons, app_assoc in Hl. apply app_inj_tail in Hl as [_ ->].
           destruct (Hl2 y); [|done]. apply elem_of_app. right. by left.
    + rewrite lookup_insert_ne by done. rewrite IH. split.
      * intros (l1 & l2 & -> & Hl2). exists l1, (l2 ++ [e]). split.
        -- by rewrite <- app_assoc.
        -- intros x [? | ->%list_elem_of_singleton]%elem_of_app; auto.
      * intros (l1 & l2 & Hl & Hl2). induction l2 as [|y l2 _] using rev_ind.
        -- apply app_inj_tail in Hl as [_ ->]. done.
        -- rewrite app_comm_cons, app_assoc in Hl. apply app_inj_tail in Hl as [-> ->].
           exists l1, l2. split; [done|]. intros x Hx. apply Hl2.
           apply elem_of_app. by left.
Qed.

(** A key is unbound in the record exactly when no entry has it. *)
Lemma dataEntryToRecord_lookup_None l k :
  dataEntryToRecord l !! k = None ↔ ∀ e, e ∈ l → key e ≠ k.
Proof.
  induction l as [|e l IH] using rev_ind.
  - split; [by intros _ ? ?%elem_of_nil|done].
  - rewrite dataEntryToRecord_snoc. destruct (decide (key e = k)) as [Hk|Hk].
    + rewrite <- Hk, lookup_insert_eq. split; [done|].
      intros Hno. destruct (Hno e); [|done]. apply elem_of_app. right. by left.
    + rewrite lookup_insert_ne by done. rewrite IH. split.
      * intros Hno x [? | ->%list_elem_of_singleton]%elem_of_app; auto.
      * intros Hno x Hx. apply Hno. apply elem_of_app. by left.
Qed.

End Records.

Section MoreSecrets.
Context `{Constants}.
Variable cluster : Cluster.

(** X1. With an external database, the one request of
    [createDatabaseSecret] carries a secret with a single datum under the
    fixed key: the value of the last entry of the form whose key is the
    password key, and [undefined] exactly when the form has no such
    entry. *)
Theorem createDatabaseSecret_password db projectName dryRun now :
  useDefault db = false →
  ∃ pw,
    (createDatabaseSecret cluster db projectName dryRun now).2
    = [{| call_secret :=
            assembleSecret projectName {[ ExternalDatabaseSecret_KEY := pw ]}
              (js "generic") ExternalDatabaseSecret_NAME;
          call_dryRun := dryRun; call_at := now |}]
    ∧ (∀ v, pw = Some v ↔
         ∃ l1 l2,
           db_value db
           = l1 ++ {| key := DatabaseConnectionKeys_PASSWORD; value := v |} :: l2
           ∧ ∀ e, e ∈ l2 → key e ≠ DatabaseConnectionKeys_PASSWORD)
    ∧ (pw = None ↔ ∀ e, e ∈ db_value db → key e ≠ DatabaseConnectionKeys_PASSWORD).
Proof.
  intros Hext. exists (dataEntryToRecord (db_value db) !! DatabaseConnectionKeys_PASSWORD).
  split; [|split].
  - unfold createDatabaseSecret. by rewrite Hext.
  - intros v. apply dataEntryToRecord_lookup_Some.
  - apply dataEntryToRecord_lookup_None.
Qed.

(** The requests of a run of [createSecrets] that are dry runs. *)
Lemma createSecrets_dry_runs config projectName now :
  ∃ real,
    (createSecrets cluster config projectName now).2
    = (createDatabaseSecret cluster (database config) projectName true now).2
      ++ (createObjectStorageSecret cluster (objectStorage config) projectName true now).2
      ++ real
    ∧ ∀ c, c ∈ real → call_dryRun c = false.
Proof.
  rewrite createSecrets_unfold. cbv zeta.
  destruct (Promise_all2 _ _) as [|T [v|e]]; cbn [snd].
  - exists []. rewrite app_nil_r. split; [done|]. by intros ? ?%elem_of_nil.
  - eexists. split; [reflexivity|].
    intros c [Hc|Hc]%elem_of_app.
    + by apply createDatabaseSecret_log in Hc as [? _].
    + by apply createObjectStorageSecret_log in Hc as [? _].
  - exists []. rewrite app_nil_r. split; [done|]. by intros ? ?%elem_of_nil.
Qed.

Lemma createDatabaseSecret_log_replay db projectName dryRun now dryRun' now' :
  (createDatabaseSecret cluster db projectName dryRun' now').2
  = (λ c, {| call_secret := call_secret c; call_dryRun := dryRun'; call_at := now' |})
      <$> (createDatabaseSecret cluster db projectName dryRun now).2.
Proof. unfold createDatabaseSecret. by destruct (useDefault db). Qed.

Lemma createObjectStorageSecret_log_replay os projectName dryRun now dryRun' now' :
  (createObjectStorageSecret cluster os projectName dryRun' now').2
  = (λ c, {| call_secret := call_secret c; call_dryRun := dryRun'; call_at := now' |})
      <$> (createObjectStorageSecret cluster os projectName dryRun now).2.
Proof. done. Qed.

(** X2. The requests of [createSecrets] are the dry runs, all sent at the
    start, followed either by nothing or by the same secrets, in the same
    order, sent for real at one later instant. There is one dry run when
    the default database is used and there are two otherwise, so at most
    four requests are sent. *)
Theorem createSecrets_replays_dry_runs config projectName now :
  ∃ dry,
    Forall (λ c, call_dryRun c = true ∧ call_at c = now) dry
    ∧ length dry = (if useDefault (database config) then 1 else 2)
    ∧ ((createSecrets cluster config projectName now).2 = dry
       ∨ ∃ T, now ≤ T
              ∧ (createSecrets cluster config projectName now).2
                = dry ++ ((λ c, {| call_secret := call_secret c;
                                   call_dryRun := false; call_at := T |}) <$> dry)).
Proof.
  exists ((createDatabaseSecret cluster (database config) projectName true now).2
          ++ (createObjectStorageSecret cluster (objectStorage config) projectName true now).2).
  split; [|split].
  - apply Forall_forall. intros c [Hc|Hc]%elem_of_app.
    + by apply createDatabaseSecret_log in Hc.
    + by apply createObjectStorageSecret_log in Hc.
  - unfold createDatabaseSecret. by destruct (useDefault (database config)).
  - rewrite createSecrets_unfold. cbv zeta.
    destruct (Promise_all2 _ _) as [|T [v|e]] eqn:Hall; cbn [snd]; [by left| |by left].
    right. exists T. split.
    + apply Promise_all2_resolved_inv in Hall as (t1 & a & t2 & b & Hd & Ho & -> & _).
      unfold createObjectStorageSecret, createSecret in Ho. cbn [fst] in Ho.
      destruct (cluster _ true now) as [|d o]; [done|]. simpl in Ho.
      destruct o; simplify_eq. lia.
    + rewrite fmap_app, <- app_assoc. do 2 f_equal.
      rewrite (createDatabaseSecret_log_replay _ _ true now false T).
      by rewrite (createObjectStorageSecret_log_replay _ _ true now false T).
Qed.

(** X3. When the secrets were created and the form has no endpoint entry,
    [configureDSPipelineResourceSpec] rejects with the [TypeError] of the
    assembly, at the instant the secrets are there; the requests with
    [dryRun = false] have been sent and nothing is sent after them. *)
Theorem configure_rejects_after_secrets config projectName now t resp :
  (createSecrets cluster config projectName now).1 = Settled t (Resolved resp) →
  (∀ e, e ∈ newValue (objectStorage config) → key e ≠ js "AWS_S3_ENDPOINT") →
  (∃ m, (configureDSPipelineResourceSpec cluster config projectName now).1
        = Settled t (Rejected (TypeError m)))
  ∧ (configureDSPipelineResourceSpec cluster config projectName now).2
    = (createSecrets cluster config projectName now).2
  ∧ ∃ c T, last (configureDSPipelineResourceSpec cluster config projectName now).2 = Some c
           ∧ call_dryRun c = false ∧ call_at c = T ∧ T ≤ t
           ∧ ∃ d secret, cluster (call_secret c) false T = Answer d (Resolved secret)
                         ∧ metadata_name secret = ref_secretName resp.2.
Proof.
  intros Hres Hno. apply dataEntryToRecord_lookup_None in Hno.
  destruct (createDSPipelineResourceSpec_no_endpoint config resp Hno) as [m Hm].
  assert (Hlog : (configureDSPipelineResourceSpec cluster config projectName now).2
                 = (createSecrets cluster config projectName now).2).
  { unfold configureDSPipelineResourceSpec. by destruct (createSecrets _ _ _ _). }
  split; [|split; [done|]].
  - exists m. unfold configureDSPipelineResourceSpec.
    destruct (createSecrets cluster config projectName now) as [p log].
    cbn [fst] in *. subst p. simpl. by rewrite Hm.
  - rewrite Hlog.
    pose proof Hres as (t1 & v1 & t2 & v2 & ta & tb & Hd1 & Ho1 & Hd2 & Ho2 & ->)%createSecrets_resolved.
    rewrite createSecrets_unfold. cbv zeta. rewrite Hd1, Ho1. cbn [Promise_all2 snd].
    unfold createObjectStorageSecret at 2. unfold createSecret. cbn [snd].
    rewrite !app_assoc, last_snoc.
    unfold createObjectStorageSecret, createSecret in Ho2. cbn [fst] in Ho2.
    eexists _, _. split; [reflexivity|]. cbn [call_dryRun call_at call_secret].
    destruct (cluster _ false (t1 `max` t2)) as [|d [secret|e]] eqn:Hcl; simpl in Ho2;
      try done.
    injection Ho2 as <- Hr. split; [done|]. split; [done|]. split; [lia|].
    exists d, secret. split; [exact Hcl|]. by rewrite <- Hr.
Qed.

(** X4. [createDSPipelineResourceSpec] returns a spec exactly when the
    form has an entry for the endpoint, whatever else it is given;
    otherwise it throws a [TypeError]. *)
Theorem createDSPipelineResourceSpec_returns_iff config resp :
  ((∃ spec, createDSPipelineResourceSpec config resp = Normal spec) ↔
   ∃ e, e ∈ newValue (objectStorage config) ∧ key e = js "AWS_S3_ENDPOINT")
  ∧ ((∃ m, createDSPipelineResourceSpec config resp = Throw (TypeError m)) ↔
     ∀ e, e ∈ newValue (objectStorage config) → key e ≠ js "AWS_S3_ENDPOINT")
  ∧ ((∃ spec, createDSPipelineResourceSpec config resp = Normal spec)
     ∨ ∃ m, createDSPipelineResourceSpec config resp = Throw (TypeError m)).
Proof.
  destruct (dataEntryToRecord (newValue (objectStorage config)) !! js "AWS_S3_ENDPOINT")
    as [endpoint|] eqn:Hep.
  - destruct (createDSPipelineResourceSpec_endpoint config resp endpoint Hep) as [spec Hs].
    apply dataEntryToRecord_lookup_Some in Hep as (l1 & l2 & Hl & _).
    split; [|split; [|eauto]].
    + split; [|eauto]. intros _.
      exists {| key := js "AWS_S3_ENDPOINT"; value := endpoint |}. rewrite Hl.
      split; [|done]. apply elem_of_app. right. by left.
    + split.
      * intros [m Hm]. congruence.
      * intros Hno. destruct (Hno {| key := js "AWS_S3_ENDPOINT"; value := endpoint |});
          [|done]. rewrite Hl. apply elem_of_app. right. by left.
  - destruct (createDSPipelineResourceSpec_no_endpoint config resp Hep) as [m Hm].
    pose proof (proj1 (dataEntryToRecord_lookup_None _ _) Hep) as Hno.
    split; [|split; [|eauto]].
    + split.
      * intros [spec Hs]. congruence.
      * intros (e & He & Hk). by destruct (Hno e He).
    + split; eauto.
Qed.

End MoreSecrets.

Section MoreSpecAssembly.
Context `{Constants}.
Variable cluster : Cluster.

(** X5. When [configureDSPipelineResourceSpec] is fulfilled, the
    credentials of the object storage in the spec refer to the secret of
    the real creation: its request was sent with [dryRun = false] for the
    given namespace and the fixed name, the name in the spec is the one the
    cluster answered with, and the two keys named in the spec are keys of
    the data of that secret, none of whose values is [undefined]. *)
Theorem configure_credentials_reference config projectName now t spec :
  (configureDSPipelineResourceSpec cluster config projectName now).1
  = Settled t (Resolved spec) →
  ∃ osSecret T d secret,
    {| call_secret := osSecret; call_dryRun := false; call_at := T |}
      ∈ (configureDSPipelineResourceSpec cluster config projectName now).2
    ∧ secret_namespace osSecret = projectName
    ∧ secret_name osSecret = DSPA_SECRET_NAME
    ∧ cluster osSecret false T = Answer d (Resolved secret)
    ∧ secretName (s3CredentialsSecret (externalStorage (spec_objectStorage spec)))
      = metadata_name secret
    ∧ is_Some (secret_data osSecret
                 !! accessKey (s3CredentialsSecret (externalStorage (spec_objectStorage spec))))
    ∧ is_Some (secret_data osSecret
                 !! secretKey (s3CredentialsSecret (externalStorage (spec_objectStorage spec))))
    ∧ ∀ k v, secret_data osSecret !! k = Some v → is_Some v.
Proof.
  unfold configureDSPipelineResourceSpec.
  destruct (createSecrets cluster config projectName now) as [p log] eqn:Hcs. cbn [fst snd].
  destruct p as [|t' [resp|e]]; simpl; try done.
  destruct (createDSPipelineResourceSpec config resp) as [spec'|e] eqn:Hspec; [|done].
  intros [= -> ->].
  assert (Hres : (createSecrets cluster config projectName now).1 = Settled t (Resolved resp))
    by by rewrite Hcs.
  apply createSecrets_resolved in Hres
    as (t1 & v1 & t2 & v2 & ta & tb & Hd1 & Ho1 & Hd2 & Ho2 & ->).
  assert (Hlog : log = (createSecrets cluster config projectName now).2) by by rewrite Hcs.
  rewrite createSecrets_unfold in Hlog. cbv zeta in Hlog. rewrite Hd1, Ho1 in Hlog.
  cbn [Promise_all2 snd] in Hlog.
  unfold createObjectStorageSecret at 2 in Hlog. unfold createSecret in Hlog.
  cbn [snd] in Hlog. unfold createObjectStorageSecret, createSecret in Ho2. cbn [fst] in Ho2.
  destruct (cluster _ false (t1 `max` t2)) as [|d [secret|e]] eqn:Hcl; simpl in Ho2; try done.
  injection Ho2 as _ Hr.
  eexists _, (t1 `max` t2), d, secret. split; [|split; [|split; [|split; [|split]]]].
  - rewrite Hlog. rewrite !elem_of_app. right. right. right. by left.
  - done.
  - done.
  - exact Hcl.
  - destruct resp as [db os]. unfold createDSPipelineResourceSpec in Hspec.
    destruct (dataEntryToRecord (newValue (objectStorage config)) !! js "AWS_S3_ENDPOINT");
      [|done].
    destruct (matchEndpoint _). injection Hspec as <-. simpl in *. by rewrite <- Hr.
  - destruct resp as [db os]. unfold createDSPipelineResourceSpec in Hspec.
    destruct (dataEntryToRecord (newValue (objectStorage config)) !! js "AWS_S3_ENDPOINT");
      [|done].
    destruct (matchEndpoint _). injection Hspec as <-. cbn -[dataEntryToRecord].
    split; [|split].
    + rewrite lookup_insert. case_decide; [done|]. by rewrite lookup_singleton_eq.
    + by rewrite lookup_insert_eq.
    + intros k v. rewrite lookup_insert. case_decide; [by intros [= <-]|].
      rewrite lookup_singleton. case_decide; [by intros [= <-]|done].
Qed.

(** X6. With a database secret, the connection fields of [externalDB] are
    read off the form: each is the value of the last entry with the key of
    the field, and [undefined] exactly when the form has no such entry. *)
Theorem externalDB_connection_fields config ref os spec :
  createDSPipelineResourceSpec config (Some ref, os) = Normal spec →
  let lastOf (k : jsstring) (o : option jsstring) :=
    (∀ v, o = Some v ↔
       ∃ l1 l2, db_value (database config) = l1 ++ {| key := k; value := v |} :: l2
                ∧ ∀ e, e ∈ l2 → key e ≠ k)
    ∧ (o = None ↔ ∀ e, e ∈ db_value (database config) → key e ≠ k) in
  ∃ db, spec_database spec = Some db
        ∧ lastOf DatabaseConnectionKeys_HOST (externalDB_host (externalDB db))
        ∧ lastOf DatabaseConnectionKeys_PORT (port (externalDB db))
        ∧ lastOf DatabaseConnectionKeys_USERNAME (username (externalDB db))
        ∧ lastOf DatabaseConnectionKeys_DATABASE (pipelineDBName (externalDB db)).
Proof.
  unfold createDSPipelineResourceSpec.
  destruct (dataEntryToRecord (newValue (objectStorage config)) !! js "AWS_S3_ENDPOINT");
    [|done].
  destruct (matchEndpoint _). intros [= <-]. cbn -[dataEntryToRecord].
  eexists. split; [reflexivity|]. cbn -[dataEntryToRecord].
  repeat split; try apply dataEntryToRecord_lookup_Some;
    apply dataEntryToRecord_lookup_None.
Qed.

Lemma matchEndpoint_Some s w h :
  matchEndpoint s = (Some w, h) →
  w ≠ [] ∧ forallb isWordChar w = true
  ∧ ∃ rest, s = w ++ js "://" ++ rest
            ∧ h = takeWhile (λ c, negb (isLineTerminator c)) rest.
Proof.
  unfold matchEndpoint.
  destruct (takeWhile isWordChar s) as [|c w'] eqn:Hw; [done|].
  destruct (dropWhile isWordChar s) as [|c1 [|c2 [|c3 rest]]] eqn:Hd;
    try (by repeat case_match).
  destruct (decide (c1 = 58%N)) as [->|]; [|by not_code_unit c1].
  destruct (decide (c2 = 47%N)) as [->|]; [|by not_code_unit c2].
  destruct (decide (c3 = 47%N)) as [->|]; [|by not_code_unit c3].
  intros [= <- <-]. split; [done|]. split.
  - rewrite <- Hw. apply takeWhile_forallb.
  - exists rest. split; [|done].
    change (js "://" ++ rest) with (58%N :: 47%N :: 47%N :: rest).
    rewrite <- Hd, <- Hw. symmetry. apply takeWhile_dropWhile.
Qed.

Lemma matchEndpoint_None s h :
  matchEndpoint s = (None, h) → h = takeWhile (λ c, negb (isLineTerminator c)) s.
Proof.
  unfold matchEndpoint.
  destruct (takeWhile isWordChar s) as [|c w'] eqn:Hw; [by intros [= <-]|].
  destruct (dropWhile isWordChar s) as [|c1 [|c2 [|c3 rest]]] eqn:Hd;
    repeat case_match; by intros [= <-].
Qed.

Lemma stripTrailingSlash_cases h :
  stripTrailingSlash h = h ∨ stripTrailingSlash h ++ js "/" = h.
Proof.
  unfold stripTrailingSlash. destruct (reverse h) as [|c r] eqn:Hr; [by left|].
  destruct (decide (c = 47%N)) as [->|]; [|left; by not_code_unit c].
  right. apply (f_equal reverse) in Hr. rewrite reverse_involutive in Hr.
  by rewrite Hr, reverse_cons.
Qed.

Lemma stripTrailingSlash_forallb (p : N → bool) h :
  forallb p h = true → forallb p (stripTrailingSlash h) = true.
Proof.
  intros Hh. destruct (stripTrailingSlash_cases h) as [->|Hs]; [done|].
  rewrite <- Hs, forallb_app in Hh. by apply andb_prop in Hh as [? _].
Qed.


(** X8. In every spec that is assembled, the scheme is not empty and is
    made of word characters, the host has no line terminator, and the
    bucket is the value of the bucket entry of the form, or the empty
    string when the form has none. *)
Theorem spec_scheme_host_bucket config resp spec :
  createDSPipelineResourceSpec config resp = Normal spec →
  let es := externalStorage (spec_objectStorage spec) in
  scheme es ≠ []
  ∧ forallb isWordChar (scheme es) = true
  ∧ forallb (λ c, negb (isLineTerminator c)) (host es) = true
  ∧ (∀ v, dataEntryToRecord (newValue (objectStorage config)) !! js "AWS_S3_BUCKET" = Some v →
          bucket es = v)
  ∧ ((∀ e, e ∈ newValue (objectStorage config) → key e ≠ js "AWS_S3_BUCKET") →
     bucket es = []).
Proof.
  intros Hspec. destruct resp as [db os].
  unfold createDSPipelineResourceSpec in Hspec.
  destruct (dataEntryToRecord (newValue (objectStorage config)) !! js "AWS_S3_ENDPOINT")
    as [endpoint|]; [|done].
  destruct (matchEndpoint endpoint) as [[w|] h] eqn:Hm; injection Hspec as <-;
    cbn -[dataEntryToRecord].
  - apply matchEndpoint_Some in Hm as (Hne & Hw & rest & -> & ->).
    split; [by destruct w|]. split; [by destruct w|]. split; [|split].
    + rewrite orElse_nil. apply stripTrailingSlash_forallb, takeWhile_forallb.
    + intros v ->. simpl. by destruct v.
    + intros Hno. apply dataEntryToRecord_lookup_None in Hno. by rewrite Hno.
  - apply matchEndpoint_None in Hm as ->.
    split; [done|]. split; [done|]. split; [|split].
    + rewrite orElse_nil. apply stripTrailingSlash_forallb, takeWhile_forallb.
    + intros v ->. simpl. by destruct v.
    + intros Hno. apply dataEntryToRecord_lookup_None in Hno. by rewrite Hno.
Qed.

End MoreSpecAssembly.

Section MoreValidation.
Variable PIPELINE_AWS_FIELDS : list FieldOptions.

Lemma objectStorageIsValid_true entries :
  objectStorageIsValid PIPELINE_AWS_FIELDS entries = true ↔
  ∀ e, e ∈ entries → requiredKey PIPELINE_AWS_FIELDS (key e) → trim (value e) ≠ [].
Proof.
  unfold objectStorageIsValid. rewrite forallb_forall. split.
  - intros Hall e He%list_elem_of_In Hk. specialize (Hall e He).
    apply requiredKey_elem_of in Hk. rewrite bool_decide_eq_true_2 in Hall by done.
    by destruct (trim (value e)).
  - intros Hall e He%list_elem_of_In. case_bool_decide as Hk; [|done].
    apply requiredKey_elem_of in Hk. specialize (Hall e He Hk).
    by destruct (trim (value e)).
Qed.

(** X9. The validity of a list of entries is that of its parts, and it
    does not depend on the order of the entries. *)
Theorem objectStorageIsValid_parts_and_order l1 l2 :
  objectStorageIsValid PIPELINE_AWS_FIELDS (l1 ++ l2)
  = objectStorageIsValid PIPELINE_AWS_FIELDS l1 && objectStorageIsValid PIPELINE_AWS_FIELDS l2
  ∧ ∀ l, l ≡ₚ l1 →
         objectStorageIsValid PIPELINE_AWS_FIELDS l
         = objectStorageIsValid PIPELINE_AWS_FIELDS l1.
Proof.
  split; [apply forallb_app|].
  intros l Hp.
  destruct (objectStorageIsValid PIPELINE_AWS_FIELDS l1) eqn:H1.
  - apply objectStorageIsValid_true. intros e He. rewrite Hp in He.
    by apply (proj1 (objectStorageIsValid_true l1) H1).
  - apply not_true_is_false. intros Hl. apply not_true_iff_false in H1. apply H1.
    apply objectStorageIsValid_true. intros e He. rewrite <- Hp in He.
    by apply (proj1 (objectStorageIsValid_true l) Hl).
Qed.

(** X10. In a valid list, the value that the record built from the list
    has for the key of a required field is not blank: what is read from
    the form of a valid object storage under a required key is either
    missing or not empty after trimming. *)
Theorem objectStorageIsValid_record entries k v :
  objectStorageIsValid PIPELINE_AWS_FIELDS entries = true →
  requiredKey PIPELINE_AWS_FIELDS k →
  dataEntryToRecord entries !! k = Some v →
  trim v ≠ [] ∧ v ≠ [].
Proof.
  intros Hvalid Hk (l1 & l2 & -> & _)%dataEntryToRecord_lookup_Some.
  assert (Ht : trim v ≠ []).
  { apply (proj1 (objectStorageIsValid_true _) Hvalid {| key := k; value := v |});
      [|done]. apply elem_of_app. right. by left. }
  split; [done|]. by intros ->.
Qed.

(** X11. [getLabelName] gives the empty string for a key that no row of
    the table has; when the keys of the table are pairwise different, it
    gives the label of the row for the key of every row. *)
Theorem getLabelName_lookup :
  (∀ k, (∀ f, f ∈ PIPELINE_AWS_FIELDS → field_key f ≠ k) →
        getLabelName PIPELINE_AWS_FIELDS k = [])
  ∧ (NoDup (field_key <$> PIPELINE_AWS_FIELDS) →
     ∀ f, f ∈ PIPELINE_AWS_FIELDS →
          getLabelName PIPELINE_AWS_FIELDS (field_key f) = label f).
Proof.
  unfold getLabelName. split.
  - intros k Hno. induction PIPELINE_AWS_FIELDS as [|g l IH]; simpl; [done|].
    rewrite bool_decide_eq_false_2 by (apply Hno; by left).
    apply IH. intros f Hf. apply Hno. by right.
  - induction PIPELINE_AWS_FIELDS as [|g l IH]; simpl; intros Hnd f Hf.
    + by apply elem_of_nil in Hf.
    + apply NoDup_cons in Hnd as [Hg Hnd]. apply elem_of_cons in Hf as [->|Hf].
      * by rewrite bool_decide_eq_true_2.
      * rewrite bool_decide_eq_false_2; [by apply IH|].
        intros Heq. apply Hg. rewrite Heq. by apply list_elem_of_fmap_2.
Qed.

End MoreValidation.

(** *** Runs on sample inputs *)

Import Samples.

(** The accepting cluster fulfils [createSecrets] with the names of the
    real creations. *)
Lemma acceptingCluster_createSecrets :
  (createSecrets Samples.acceptingCluster
     (Samples.config Samples.externalDatabase "https://s3.example.com/")
     (js "ds-project") 0).1
  = Settled 2 (Resolved
      (Some {| ref_key := js "db-password";
               ref_name := js "pipelines-db-password-x7k2p" |},
       {| ref_secretName := js "dashboard-dspa-secret-x7k2p" |})).
Proof. by vm_compute. Qed.

(** With the accepting cluster, two dry runs are sent at instant 0 and two
    real creations at instant 1. *)
Lemma acceptingCluster_log :
  (λ c, (call_dryRun c, call_at c)) <$>
    (createSecrets Samples.acceptingCluster
       (Samples.config Samples.externalDatabase "https://s3.example.com/")
       (js "ds-project") 0).2
  = [(true, 0); (true, 0); (false, 1); (false, 1)].
Proof. by vm_compute. Qed.

Lemma createSecrets_real_only_after_dry_runs_run :
  Forall (λ c, call_dryRun c = true)
    (createSecrets Samples.rejectingCluster
       (Samples.config Samples.externalDatabase "https://s3.example.com/")
       (js "ds-project") 0).2.
Proof.
  apply Forall_forall.
  apply (proj1 (createSecrets_real_only_after_dry_runs Samples.rejectingCluster
                  (Samples.config Samples.externalDatabase "https://s3.example.com/")
                  (js "ds-project") 0)).
  left. exists 2, (Error (js "database secret refused")). vm_compute. reflexivity.
Defined.

(** C3, as stated, fails: both dry runs reject, the database one at
    instant 2 and the object-storage one at instant 1, and [createSecrets]
    rejects with the error of the object-storage one; the error of the
    database dry run is not the one it rejects with. *)
Lemma createSecrets_later_rejection_lost :
  (createDatabaseSecret Samples.rejectingCluster Samples.externalDatabase
     (js "ds-project") true 0).1
  = Settled 2 (Rejected (Error (js "database secret refused")))
  ∧ (createSecrets Samples.rejectingCluster
       (Samples.config Samples.externalDatabase "https://s3.example.com/")
       (js "ds-project") 0).1
    = Settled 1 (Rejected (Error (js "storage secret refused")))
  ∧ Error (js "database secret refused") ≠ Error (js "storage secret refused").
Proof. vm_compute. split; [reflexivity|]. split; [reflexivity|]. discriminate. Qed.

Lemma createSecrets_outcome_run :
  (createSecrets Samples.acceptingCluster
     (Samples.config Samples.externalDatabase "https://s3.example.com/")
     (js "ds-project") 0).1
  = Settled 2 (Resolved
      (Some {| ref_key := js "db-password";
               ref_name := js "pipelines-db-password-x7k2p" |},
       {| ref_secretName := js "dashboard-dspa-secret-x7k2p" |})).
Proof.
  apply (proj1 (createSecrets_outcome Samples.acceptingCluster
                  (Samples.config Samples.externalDatabase "https://s3.example.com/")
                  (js "ds-project") 0)).
  exists 1, (Some {| ref_key := js "db-password"; ref_name := js "pipelines-db-password" |}),
    1, {| ref_secretName := js "dashboard-dspa-secret" |}, 2, 2.
  vm_compute. repeat split.
Defined.

Lemma useDefault_omits_externalDB_run :
  useDefault (database (Samples.config Samples.defaultDatabase "s3.amazonaws.com/")) = true
  ∧ ∃ t spec,
      (configureDSPipelineResourceSpec Samples.acceptingCluster
         (Samples.config Samples.defaultDatabase "s3.amazonaws.com/")
         (js "ds-project") 0).1
      = Settled t (Resolved spec)
      ∧ spec_database spec = None.
Proof.
  split; [reflexivity|].
  destruct (useDefault_omits_externalDB Samples.acceptingCluster
              (Samples.config Samples.defaultDatabase "s3.amazonaws.com/")
              (js "ds-project") eq_refl) as (_ & _ & _ & Hspec & _).
  eexists 2, _. split; [reflexivity|]. apply (Hspec 0 2). reflexivity.
Defined.

Lemma external_database_passwordSecret_run :
  useDefault (database (Samples.config Samples.externalDatabase "https://s3.example.com/"))
  = false
  ∧ ∃ t spec db,
      (configureDSPipelineResourceSpec Samples.acceptingCluster
         (Samples.config Samples.externalDatabase "https://s3.example.com/")
         (js "ds-project") 0).1
      = Settled t (Resolved spec)
      ∧ spec_database spec = Some db
      ∧ passwordSecret (externalDB db)
        = {| passwordSecret_key := js "db-password";
             passwordSecret_name := js "pipelines-db-password-x7k2p" |}.
Proof.
  split; [reflexivity|].
  destruct (external_database_passwordSecret Samples.acceptingCluster
              (Samples.config Samples.externalDatabase "https://s3.example.com/")
              (js "ds-project") eq_refl) as [_ Hreal].
  destruct (Hreal 0 2 _ acceptingCluster_createSecrets)
    as (T & d & secret & _ & Hcl & _ & _ & Hspec).
  injection Hcl as _ <-.
  destruct (Hspec 2 _ eq_refl) as (db & Hdb & Hpw).
  eexists 2, _, db. split; [reflexivity|]. split; [exact Hdb|]. exact Hpw.
Defined.


(** C4, as stated, fails for a host with a line terminator: the endpoint
    is [http://a], a line feed, [b/]; the host of the spec is [a]. *)
Lemma endpoint_host_line_terminator :
  ∃ spec,
    createDSPipelineResourceSpec
      {| database := Samples.defaultDatabase;
         objectStorage := {| newValue :=
           [{| key := js "AWS_S3_ENDPOINT";
               value := js "http" ++ js "://" ++ (js "a" ++ [10%N] ++ js "b") ++ js "/" |}] |} |}
      (None, {| ref_secretName := js "dashboard-dspa-secret" |})
    = Normal spec
    ∧ host (externalStorage (spec_objectStorage spec)) = js "a"
    ∧ scheme (externalStorage (spec_objectStorage spec)) = js "http"
    ∧ js "a" ≠ js "a" ++ [10%N] ++ js "b".
Proof. eexists. split; [reflexivity|]. vm_compute. repeat split. discriminate. Qed.

Lemma endpoint_scheme_and_host_run :
  ∃ spec,
    createDSPipelineResourceSpec
      (Samples.config Samples.defaultDatabase "http://minio.local:9000/")
      (None, {| ref_secretName := js "dashboard-dspa-secret" |})
    = Normal spec
    ∧ host (externalStorage (spec_objectStorage spec)) = js "minio.local:9000"
    ∧ scheme (externalStorage (spec_objectStorage spec)) = js "http".
Proof.
  apply (proj1 (endpoint_scheme_and_host
                  (Samples.config Samples.defaultDatabase "http://minio.local:9000/")
                  (None, {| ref_secretName := js "dashboard-dspa-secret" |}))
           (js "http") (js "minio.local:9000")).
  - discriminate.
  - reflexivity.
  - reflexivity.
  - vm_compute. reflexivity.
Defined.

(** C6: the form has a bucket and no endpoint; the assembly of the spec
    throws a [TypeError] and returns no spec. *)
Theorem createDSPipelineResourceSpec_throws_without_endpoint :
  createDSPipelineResourceSpec
    {| database := Samples.defaultDatabase;
       objectStorage := {| newValue := [Samples.entry "AWS_S3_BUCKET" "my-bucket"] |} |}
    (None, {| ref_secretName := js "dashboard-dspa-secret" |})
  = Throw (TypeError (js "Cannot read properties of undefined (reading 'replace')")).
Proof. reflexivity. Qed.

(** Validity of the empty list, whatever the table. *)
Lemma objectStorageIsValid_nil table : objectStorageIsValid table [] = true.
Proof. reflexivity. Qed.

(** C5, as stated, fails: the list has a bucket only, the required fields
    [AWS_ACCESS_KEY_ID], [AWS_SECRET_ACCESS_KEY] and [AWS_S3_ENDPOINT] have
    no entry, and the list is valid. *)
Lemma objectStorageIsValid_missing_required_field :
  objectStorageIsValid Samples.fields [Samples.entry "AWS_S3_BUCKET" "my-bucket"] = true
  ∧ ∃ f, f ∈ Samples.fields ∧ isRequired f = true
         ∧ field_key f = js "AWS_S3_ENDPOINT"
         ∧ ∀ e, e ∈ [Samples.entry "AWS_S3_BUCKET" "my-bucket"] → key e ≠ field_key f.
Proof.
  split; [by vm_compute|].
  exists {| field_key := js "AWS_S3_ENDPOINT"; label := js "Endpoint"; isRequired := true |}.
  split; [set_solver|]. split; [done|]. split; [done|].
  by intros e ->%list_elem_of_singleton.
Qed.

Lemma objectStorageIsValid_false_run :
  objectStorageIsValid Samples.fields
    [Samples.entry "AWS_ACCESS_KEY_ID" "AKIA"; Samples.entry "AWS_S3_ENDPOINT" "  "]
  = false.
Proof.
  apply (proj1 (objectStorageIsValid_false Samples.fields _)).
  exists (Samples.entry "AWS_S3_ENDPOINT" "  "). split; [|split].
  - apply list_elem_of_In. right. left. reflexivity.
  - exists {| field_key := js "AWS_S3_ENDPOINT"; label := js "Endpoint"; isRequired := true |}.
    split; [|split; reflexivity].
    apply list_elem_of_In. right. right. left. reflexivity.
  - reflexivity.
Defined.

(** *** Further runs on sample inputs *)

Lemma createDatabaseSecret_password_run :
  useDefault Samples.externalDatabase = false
  ∧ ∃ pw,
      (createDatabaseSecret Samples.acceptingCluster Samples.externalDatabase
         (js "ds-project") true 0).2
      = [{| call_secret :=
              assembleSecret (js "ds-project") {[ js "db-password" := pw ]}
                (js "generic") (js "pipelines-db-password");
            call_dryRun := true; call_at := 0 |}]
      ∧ pw = Some (js "hunter2").
Proof.
  split; [reflexivity|].
  destruct (createDatabaseSecret_password Samples.acceptingCluster Samples.externalDatabase
              (js "ds-project") true 0 eq_refl) as (pw & Hlog & Hsome & _).
  exists pw. split; [exact Hlog|]. apply Hsome.
  exists [Samples.entry "host" "mariadb.example"; Samples.entry "port" "3306";
          Samples.entry "username" "admin"],
         [Samples.entry "database" "mlpipelines"].
  split; [reflexivity|].
  intros e He. apply list_elem_of_singleton in He. rewrite He. discriminate.
Defined.

Lemma configure_rejects_after_secrets_run :
  ∃ m, (configureDSPipelineResourceSpec Samples.acceptingCluster
          {| database := Samples.defaultDatabase;
             objectStorage := Samples.storageWithoutEndpoint |}
          (js "ds-project") 0).1
       = Settled 2 (Rejected (TypeError m)).
Proof.
  refine (proj1 (configure_rejects_after_secrets Samples.acceptingCluster
            {| database := Samples.defaultDatabase;
               objectStorage := Samples.storageWithoutEndpoint |}
            (js "ds-project") 0 2
            (None, {| ref_secretName := js "dashboard-dspa-secret-x7k2p" |}) _ _)).
  - vm_compute. reflexivity.
  - intros e He. simpl in He.
    repeat (apply elem_of_cons in He as [He|He]; [rewrite He; discriminate|]).
    by apply elem_of_nil in He.
Defined.

Lemma configure_credentials_reference_run :
  ∃ t spec,
    (configureDSPipelineResourceSpec Samples.acceptingCluster
       (Samples.config Samples.externalDatabase "https://s3.example.com/")
       (js "ds-project") 0).1
    = Settled t (Resolved spec)
    ∧ secretName (s3CredentialsSecret (externalStorage (spec_objectStorage spec)))
      = js "dashboard-dspa-secret-x7k2p".
Proof.
  destruct (configureDSPipelineResourceSpec Samples.acceptingCluster
              (Samples.config Samples.externalDatabase "https://s3.example.com/")
              (js "ds-project") 0).1 as [|t [spec|e]] eqn:Hc;
    try (vm_compute in Hc; discriminate Hc).
  destruct (configure_credentials_reference _ _ _ _ _ _ Hc)
    as (osSecret & T & d & secret & _ & _ & Hn & Hcl & Hname & _).
  exists t, spec. split; [reflexivity|].
  rewrite Hname. unfold Samples.acceptingCluster in Hcl. injection Hcl as _ <-.
  simpl. rewrite Hn. reflexivity.
Defined.

Lemma externalDB_connection_fields_run :
  ∃ spec db,
    createDSPipelineResourceSpec
      (Samples.config Samples.externalDatabase "https://s3.example.com/")
      (Some {| ref_key := js "db-password"; ref_name := js "pipelines-db-password-x7k2p" |},
       {| ref_secretName := js "dashboard-dspa-secret-x7k2p" |})
    = Normal spec
    ∧ spec_database spec = Some db
    ∧ externalDB_host (externalDB db) = Some (js "mariadb.example").
Proof.
  destruct (createDSPipelineResourceSpec _ _) as [spec|e] eqn:Hs;
    [|vm_compute in Hs; discriminate Hs].
  destruct (externalDB_connection_fields _ _ _ _ Hs) as (db & Hdb & [Hhost _] & _).
  exists spec, db. split; [reflexivity|]. split; [exact Hdb|]. apply Hhost.
  exists [], [Samples.entry "port" "3306"; Samples.entry "username" "admin";
              Samples.entry "password" "hunter2"; Samples.entry "database" "mlpipelines"].
  split; [reflexivity|]. intros e He.
  repeat (apply elem_of_cons in He as [He|He]; [rewrite He; discriminate|]).
  by apply elem_of_nil in He.
Defined.


Lemma spec_scheme_host_bucket_run :
  ∃ spec,
    createDSPipelineResourceSpec
      (Samples.config Samples.defaultDatabase "https://s3.example.com/")
      (None, {| ref_secretName := js "dashboard-dspa-secret" |})
    = Normal spec
    ∧ scheme (externalStorage (spec_objectStorage spec)) ≠ []
    ∧ forallb isWordChar (scheme (externalStorage (spec_objectStorage spec))) = true.
Proof.
  destruct (createDSPipelineResourceSpec _ _) as [spec|e] eqn:Hs;
    [|vm_compute in Hs; discriminate Hs].
  exists spec. split; [reflexivity|].
  destruct (spec_scheme_host_bucket _ _ _ Hs) as (Hne & Hw & _). split; assumption.
Defined.

Lemma objectStorageIsValid_record_run :
  objectStorageIsValid Samples.fields (newValue (Samples.storage "https://s3.example.com/"))
  = true
  ∧ trim (js "https://s3.example.com/") ≠ [].
Proof.
  split; [reflexivity|].
  refine (proj1 (objectStorageIsValid_record Samples.fields
                   (newValue (Samples.storage "https://s3.example.com/"))
                   (js "AWS_S3_ENDPOINT") (js "https://s3.example.com/") eq_refl _ eq_refl)).
  exists {| field_key := js "AWS_S3_ENDPOINT"; label := js "Endpoint"; isRequired := true |}.
  split; [|split; reflexivity].
  apply list_elem_of_In. right. right. left. reflexivity.
Defined.

Lemma getLabelName_lookup_run :
  getLabelName Samples.fields (js "AWS_S3_BUCKET") = js "Bucket".
Proof.
  refine (proj2 (getLabelName_lookup Samples.fields) _
            {| field_key := js "AWS_S3_BUCKET"; label := js "Bucket"; isRequired := true |} _).
  - apply (bool_decide_unpack _). vm_compute. exact I.
  - apply list_elem_of_In. do 4 right. left. reflexivity.
Defined.

End ConfigurePipelinesServerFacts.

(** ** Properties of the project calls *)

Module ProjectsFacts.
Import Projects.

Section Api.
Context {V : Type}.
Variable ProjectModel : K8sModelCommon.
Variable ODH_PRODUCT_NAME : jsstring.
Variable translateDisplayNameForK8s : jsstring → jsstring.
Variable throwErrorFromAxios : JsError → JsError.
Variable services : @Services V.

Lemma appliedOf_true response :
  appliedOf response = true ↔ ∃ s, data response = Some s ∧ applied s = Some true.
Proof.
  unfold appliedOf. destruct response as [[[[[|]|]]|]]; simpl; split; try done.
  - eauto.
  - by intros (s & [= <-] & [=]).
  - by intros (s & [= <-] & [=]).
  - by intros (s & [=] & _).
Qed.

Lemma appliedOf_false response :
  appliedOf response = false ↔
  data response = None
  ∨ ∃ s, data response = Some s ∧ (applied s = None ∨ applied s = Some false).
Proof.
  unfold appliedOf. destruct response as [[[[[|]|]]|]]; simpl; split; try done; eauto.
  intros [[=]|(s & [= <-] & [[=]|[=]])].
Qed.

(** C9. Let [throwErrorFromAxios] throw again an error that is not an
    Axios error. [createProject] is fulfilled, with the name of the created
    project, exactly when the project request was created and the namespace
    endpoint answered with [applied = true]. When the endpoint answers
    with [applied] false or absent, [createProject] rejects with the error
    that asks for an admin, and it has sent exactly one project request and
    one request to the endpoint. In every run it sends at most these two
    requests. *)
Theorem createProject_applied username displayName description k8sName now :
  (∀ m, throwErrorFromAxios (Error m) = Error m) →
  let resource := createProject_resource translateDisplayNameForK8s displayName description k8sName in
  let r := createProject ODH_PRODUCT_NAME translateDisplayNameForK8s throwErrorFromAxios
             services username displayName description k8sName now in
  (∀ t n, r.1 = Settled t (Resolved n) ↔
     ∃ d project d' response s,
       k8sCreate services ProjectRequest resource now = Answer d (Resolved project)
       ∧ n = metadata_name (metadata project)
       ∧ axiosGet services (namespaceUrl n) (now + d) = Answer d' (Resolved response)
       ∧ data response = Some s ∧ applied s = Some true
       ∧ t = now + d + d')
  ∧ (∀ d project d' response,
       k8sCreate services ProjectRequest resource now = Answer d (Resolved project) →
       axiosGet services (namespaceUrl (metadata_name (metadata project))) (now + d)
       = Answer d' (Resolved response) →
       (data response = None
        ∨ ∃ s, data response = Some s ∧ (applied s = None ∨ applied s = Some false)) →
       r.1 = Settled (now + d + d')
               (Rejected (Error (js "Unable to fully create your project. Ask a "
                                 ++ ODH_PRODUCT_NAME ++ js " admin for assistance.")))
       ∧ r.2 = [K8sCreateResource ProjectRequest resource now;
                AxiosGet (namespaceUrl (metadata_name (metadata project))) (now + d)])
  ∧ (r.2 = [K8sCreateResource ProjectRequest resource now]
     ∨ ∃ n t, r.2 = [K8sCreateResource ProjectRequest resource now;
                     AxiosGet (namespaceUrl n) t]).
Proof.
  intros Hrethrow resource r. subst r. unfold createProject. fold resource.
  destruct (k8sCreate services ProjectRequest resource now) as [|d [project|e]] eqn:Hc;
    simpl.
  { split; [|split; [done|by left]]. intros t n. split; [done|].
    by intros (? & ? & ? & ? & ? & ? & _). }
  2:{ split; [|split; [done|by left]]. intros t n. split; [done|].
      by intros (? & ? & ? & ? & ? & ? & _). }
  destruct (axiosGet services (namespaceUrl (metadata_name (metadata project))) (now + d))
    as [|d' [response|e]] eqn:Ha; simpl.
  - split; [|split; [|right; eauto]].
    + intros t n. split; [done|].
      intros (? & ? & ? & ? & ? & [= <- <-] & -> & Ha' & _). congruence.
    + intros ???? [= <- <-] Ha'. congruence.
  - destruct (appliedOf response) eqn:Happ; simpl.
    + split; [|split; [|right; eauto]].
      * intros t n. split.
        -- intros [= <- <-]. apply appliedOf_true in Happ as (s & Hs & Hap).
           by exists d, project, d', response, s.
        -- intros (? & ? & ? & ? & ? & [= <- <-] & -> & Ha' & _ & _ & ->).
           rewrite Ha in Ha'. by injection Ha' as <- _.
      * intros ???? [= <- <-]. rewrite Ha. intros [= <- <-] Hno.
        apply appliedOf_false in Hno. congruence.
    + split; [|split; [|right; eauto]].
      * intros t n. split; [done|].
        intros (? & ? & ? & ? & s & [= <- <-] & -> & Ha' & Hs & Hap & _).
        rewrite Ha in Ha'. injection Ha' as _ <-.
        assert (appliedOf response = true) by (apply appliedOf_true; eauto).
        congruence.
      * intros ???? [= <- <-]. rewrite Ha. intros [= <- <-] _.
        by rewrite Hrethrow.
  - split; [|split; [|right; eauto]].
    + intros t n. split; [done|].
      intros (? & ? & ? & ? & ? & [= <- <-] & -> & Ha' & _). congruence.
    + intros ???? [= <- <-]. by rewrite Ha.
Qed.

(** C10. The resource that [updateProject] sends, in one request, differs
    from the project it is given in the annotations only: there the display
    name is the trimmed one, the description is the given one, and every
    other annotation is as it was. *)
Theorem updateProject_frame (editProjectData : @ProjectKind V)
    (displayName description : jsstring) now :
  ∃ resource a,
    (updateProject ProjectModel services editProjectData displayName description now).2
    = [K8sUpdateResource ProjectModel resource now]
    ∧ project_rest resource = project_rest editProjectData
    ∧ metadata_name (metadata resource) = metadata_name (metadata editProjectData)
    ∧ metadata_rest (metadata resource) = metadata_rest (metadata editProjectData)
    ∧ annotations (metadata resource) = Some a
    ∧ a !! js "openshift.io/display-name" = Some (trim displayName)
    ∧ a !! js "openshift.io/description" = Some description
    ∧ ∀ k, k ≠ js "openshift.io/display-name" → k ≠ js "openshift.io/description" →
           a !! k = default ∅ (annotations (metadata editProjectData)) !! k.
Proof.
  eexists _, _. split; [reflexivity|]. simpl.
  split; [done|]. split; [done|]. split; [done|]. split; [done|]. split; [|split].
  - rewrite lookup_insert_ne by (by vm_compute). apply lookup_insert_eq.
  - apply lookup_insert_eq.
  - intros k Hdn Hdesc. by rewrite !lookup_insert_ne.
Qed.

End Api.

Section MoreApi.
Context {V : Type}.
Variable ODH_PRODUCT_NAME : jsstring.
Variable translateDisplayNameForK8s : jsstring → jsstring.
Variable throwErrorFromAxios : JsError → JsError.
Variable services : @Services V.

Lemma dropWhile_idemp {A} (p : A → bool) l : dropWhile p (dropWhile p l) = dropWhile p l.
Proof.
  destruct (dropWhile p l) as [|x r] eqn:Hd; [done|].
  apply dropWhile_head in Hd. simpl. by rewrite Hd.
Qed.

(** Trimming a trimmed string changes nothing. *)
Lemma trim_idemp s : trim (trim s) = trim s.
Proof.
  unfold trim. set (d := dropWhile isTrimmed s).
  assert (Hhead : dropWhile isTrimmed (reverse (dropWhile isTrimmed (reverse d)))
                  = reverse (dropWhile isTrimmed (reverse d))).
  { destruct (dropWhile isTrimmed (reverse d)) as [|y r] eqn:Hr; [done|].
    pose proof (takeWhile_dropWhile isTrimmed (reverse d)) as Hsplit.
    rewrite Hr in Hsplit. apply (f_equal reverse) in Hsplit.
    rewrite reverse_involutive, reverse_app in Hsplit.
    destruct (reverse (y :: r)) as [|x r'] eqn:Hx.
    { apply (f_equal reverse) in Hx. rewrite reverse_involutive in Hx. done. }
    simpl in Hsplit. subst d. symmetry in Hsplit. apply dropWhile_head in Hsplit.
    simpl. by rewrite Hsplit. }
  by rewrite Hhead, reverse_involutive, dropWhile_idemp.
Qed.

(** X12. Updating a project twice is updating it with the values of the
    second update, so that an update repeated with the same values changes
    nothing more; and the resource does not depend on the white space
    around the display name. *)
Theorem updateProject_resource_last_wins (p : @ProjectKind V)
    (displayName description displayName' description' : jsstring) :
  updateProject_resource (updateProject_resource p displayName description)
    displayName' description'
  = updateProject_resource p displayName' description'
  ∧ updateProject_resource (updateProject_resource p displayName description)
      displayName description
    = updateProject_resource p displayName description
  ∧ updateProject_resource p (trim displayName) description
    = updateProject_resource p displayName description.
Proof.
  assert (Hlast : ∀ dn d dn' d',
    updateProject_resource (updateProject_resource p dn d) dn' d'
    = updateProject_resource p dn' d').
  { intros. unfold updateProject_resource. simpl. do 3 f_equal.
    apply map_eq. intros k. rewrite !lookup_insert. by repeat case_decide. }
  split; [apply Hlast|]. split; [apply Hlast|].
  unfold updateProject_resource. by rewrite trim_idemp.
Qed.

(** X17. The name of the project request is the given resource name when
    there is one that is not empty; otherwise it is the display name
    translated twice, which is the translated display name when the
    translation of a translated name changes nothing. *)
Theorem createProject_requested_name displayName description k8sName :
  let requested :=
    request_metadata_name
      (createProject_resource translateDisplayNameForK8s displayName description k8sName) in
  (∀ n, k8sName = Some n → n ≠ [] → requested = n)
  ∧ (k8sName = None ∨ k8sName = Some [] →
     requested = translateDisplayNameForK8s (translateDisplayNameForK8s displayName))
  ∧ ((∀ s, translateDisplayNameForK8s (translateDisplayNameForK8s s)
           = translateDisplayNameForK8s s) →
     k8sName = None ∨ k8sName = Some [] →
     requested = translateDisplayNameForK8s displayName).
Proof.
  simpl. split; [|split].
  - intros n -> Hn. by destruct n.
  - by intros [->| ->].
  - intros Hidem [->| ->]; simpl; apply Hidem.
Qed.

(** X18. When the creation of the project request rejects, [createProject]
    rejects with the same error, as it is, and the namespace endpoint is
    not called. When the endpoint rejects, [createProject] rejects with
    what [throwErrorFromAxios] throws for that error. When either call
    never answers, [createProject] never settles. *)
Theorem createProject_failures username displayName description k8sName now :
  let resource := createProject_resource translateDisplayNameForK8s displayName description k8sName in
  let r := createProject ODH_PRODUCT_NAME translateDisplayNameForK8s throwErrorFromAxios
             services username displayName description k8sName now in
  (∀ d e, k8sCreate services ProjectRequest resource now = Answer d (Rejected e) →
          r = (Settled (now + d) (Rejected e),
               [K8sCreateResource ProjectRequest resource now]))
  ∧ (k8sCreate services ProjectRequest resource now = Hang →
     r = (Pending, [K8sCreateResource ProjectRequest resource now]))
  ∧ (∀ d project d' e,
       k8sCreate services ProjectRequest resource now = Answer d (Resolved project) →
       axiosGet services (namespaceUrl (metadata_name (metadata project))) (now + d)
       = Answer d' (Rejected e) →
       r.1 = Settled (now + d + d') (Rejected (throwErrorFromAxios e)))
  ∧ (∀ d project,
       k8sCreate services ProjectRequest resource now = Answer d (Resolved project) →
       axiosGet services (namespaceUrl (metadata_name (metadata project))) (now + d) = Hang →
       r.1 = Pending).
Proof.
  intros resource r. subst r. unfold createProject. fold resource.
  split; [|split; [|split]].
  - by intros d e ->.
  - by intros ->.
  - intros d project d' e -> . simpl. by intros ->.
  - intros d project ->. simpl. by intros ->.
Qed.

End MoreApi.

Section ServingFacts.
Context {V K8sAPIOptions ServingRuntimeKind NamespaceApplicationCase : Type}.
Variable renderCase : NamespaceApplicationCase → jsstring.
Variable ProjectModel : K8sModelCommon.
Variable ODH_PRODUCT_NAME : jsstring.
Variable LABEL_SELECTOR_DASHBOARD_RESOURCE : jsstring.
Variable LABEL_SELECTOR_MODEL_SERVING_PROJECT : jsstring.
Variable throwErrorFromAxios : JsError → JsError.
Variable servingServices : @ServingServices V K8sAPIOptions ServingRuntimeKind.

Local Abbreviation callbackT :=
  (@ProjectKind V → nat → Promise bool * list (@ServingRequest K8sAPIOptions)).

Lemma filter_unfold arr (callback : callbackT) now :
  filter arr callback now
  = (Promise_then (Promise_all now (mark callback now <$> arr))
       (λ marks, Normal (omap id marks)),
     concat ((λ item, (callback item now).2) <$> arr)).
Proof.
  unfold filter. rewrite <- !list_fmap_compose.
  assert (Hm : (λ '(item, (p, _)),
                  Promise_then p (λ keep : bool, Normal (if keep then Some item else None)))
               ∘ (λ item, (item, callback item now)) <$> arr
               = mark callback now <$> arr).
  { apply list_fmap_ext. intros i item _. simpl. unfold mark.
    by destruct (callback item now). }
  assert (Hl : (λ '(_, (_, log)), log) ∘ (λ item, (item, callback item now)) <$> arr
               = (λ item, (callback item now).2) <$> arr).
  { apply list_fmap_ext. intros i item _. simpl. by destruct (callback item now). }
  by rewrite Hm, Hl.
Qed.

Lemma mark_resolved (callback : callbackT) now item t m :
  mark callback now item = Settled t (Resolved m) ↔
  ∃ b, (callback item now).1 = Settled t (Resolved b)
       ∧ m = if b then Some item else None.
Proof.
  unfold mark. destruct (callback item now).1 as [|t' [b|e]]; simpl.
  - split; [done|]. by intros (? & ? & _).
  - split.
    + intros [= <- <-]. eauto.
    + by intros (b' & [= <- <-] & ->).
  - split; [done|]. by intros (? & ? & _).
Qed.

Lemma mark_rejected (callback : callbackT) now item t e :
  mark callback now item = Settled t (Rejected e) ↔
  (callback item now).1 = Settled t (Rejected e).
Proof.
  unfold mark. destruct (callback item now).1 as [|t' [b|e']]; simpl.
  - split; intros [=].
  - split; intros [=].
  - split; by intros [= -> ->].
Qed.

Lemma marks_kept arr (callback : callbackT) now marks :
  resolvedValues (mark callback now <$> arr) = Some marks →
  omap id marks = List.filter (λ item, fulfilledTrue (callback item now).1) arr.
Proof.
  revert marks. induction arr as [|item arr IH]; simpl; intros marks.
  - by intros [= <-].
  - destruct (mark callback now item) as [|t [m|e]] eqn:Hm; try done.
    destruct (resolvedValues _) as [marks'|]; [|done]. intros [= <-].
    apply mark_resolved in Hm as (b & Hb & ->). rewrite Hb, <- (IH _ eq_refl).
    by destruct b.
Qed.

(** X14. When [filter] is fulfilled, every callback was fulfilled, not
    later than [filter], and the result is made of the items whose
    callback answered [true], in the order of the array; for the empty
    array the result is empty, at once. *)
Theorem filter_result arr (callback : callbackT) now :
  (∀ t res, (filter arr callback now).1 = Settled t (Resolved res) →
     res = List.filter (λ item, fulfilledTrue (callback item now).1) arr
     ∧ sublist res arr
     ∧ ∀ item, item ∈ arr →
         ∃ t' b, (callback item now).1 = Settled t' (Resolved b) ∧ t' ≤ t)
  ∧ ((∀ item, item ∈ arr → ∃ t' b, (callback item now).1 = Settled t' (Resolved b)) →
     ∃ t, (filter arr callback now).1
          = Settled t (Resolved
              (List.filter (λ item, fulfilledTrue (callback item now).1) arr)))
  ∧ (filter [] callback now).1 = Settled now (Resolved []).
Proof.
  split; [|split; [|done]].
  - intros t res. rewrite filter_unfold. cbn [fst].
    destruct (Promise_all _ _) as [|t' [marks|e]] eqn:Hall; simpl; try done.
    intros [= -> <-]. apply Promise_all_resolved in Hall as [Hr ->].
    rewrite (marks_kept _ _ _ _ Hr). split; [done|]. split.
    + clear. induction arr as [|x l IH]; simpl; [constructor|].
      destruct (fulfilledTrue _); by constructor.
    + intros item Hin. apply resolvedValues_Some in Hr.
      apply (list_elem_of_fmap_2 (mark callback now)) in Hin as Hin'.
      apply list_elem_of_lookup in Hin' as [i Hi].
      destruct (Forall2_lookup_l _ _ _ _ _ Hr Hi) as (m & _ & t' & Hm).
      apply mark_resolved in Hm as Hm'. destruct Hm' as (b & Hb & _).
      exists t', b. split; [done|].
      apply (proj2 (latest_ge now (mark callback now <$> arr)) t' (Resolved m)).
      rewrite <- Hm. apply list_elem_of_lookup. eauto.
  - intros Hall. rewrite filter_unfold. cbn [fst].
    assert (∃ marks, resolvedValues (mark callback now <$> arr) = Some marks) as [marks Hr].
    { clear -Hall. induction arr as [|x l IH]; [by exists []|].
      destruct (Hall x) as (t' & b & Hb); [by left|].
      destruct IH as [marks Hr]; [intros; apply Hall; by right|].
      exists ((if b then Some x else None) :: marks).
      rewrite fmap_cons. cbn [resolvedValues]. unfold mark at 1. rewrite Hb.
      cbn [Promise_then]. by rewrite Hr. }
    exists (latest now (mark callback now <$> arr)).
    rewrite (proj2 (Promise_all_resolved _ _ _ _) (conj Hr eq_refl)). simpl.
    by rewrite (marks_kept _ _ _ _ Hr).
Qed.

(** X15. [filter] starts the callback of every item, whatever the
    answers: its requests are those of the callbacks, in the order of the
    array. It rejects exactly when a callback rejects, with the error and
    at the instant of the callback that rejects first. *)
Theorem filter_requests_and_rejection arr (callback : callbackT) now :
  (filter arr callback now).2 = concat ((λ item, (callback item now).2) <$> arr)
  ∧ (∀ t e, (filter arr callback now).1 = Settled t (Rejected e) →
       (∃ item, item ∈ arr ∧ (callback item now).1 = Settled t (Rejected e))
       ∧ ∀ item t' e', item ∈ arr →
           (callback item now).1 = Settled t' (Rejected e') → t ≤ t')
  ∧ (∀ item t' e', item ∈ arr → (callback item now).1 = Settled t' (Rejected e') →
       ∃ t e, t ≤ t' ∧ (filter arr callback now).1 = Settled t (Rejected e)).
Proof.
  rewrite filter_unfold. cbn [fst snd]. split; [done|]. split.
  - intros t e.
    destruct (Promise_all _ _) as [|t0 [marks|e0]] eqn:Hall; simpl; try done.
    intros [= -> ->]. apply Promise_all_rejected, firstRejection_Some in Hall as [Hin Hmin].
    split.
    + apply list_elem_of_fmap in Hin as (item & Hm & Hin). symmetry in Hm.
      apply mark_rejected in Hm. eauto.
    + intros item t' e' Hin' Hrej. apply (Hmin t' e').
      apply mark_rejected in Hrej. rewrite <- Hrej. by apply list_elem_of_fmap_2.
  - intros item t' e' Hin Hrej. apply mark_rejected in Hrej.
    destruct (firstRejection (mark callback now <$> arr)) as [[t e]|] eqn:Hf.
    + exists t, e. split.
      * apply firstRejection_Some in Hf as [_ Hmin]. apply (Hmin t' e').
        rewrite <- Hrej. by apply list_elem_of_fmap_2.
      * by rewrite (proj2 (Promise_all_rejected now _ _ _) Hf).
    + destruct (proj1 (firstRejection_None _) Hf t' e').
      rewrite <- Hrej. by apply list_elem_of_fmap_2.
Qed.

Lemma truthy_selector (a b : jsstring) : truthy (a ++ js "," ++ b) = true.
Proof. by destruct a. Qed.

Lemma hasServingRuntimes_true (project : @ProjectKind V) now :
  fulfilledTrue (hasServingRuntimes servingServices project now).1 = true ↔
  ∃ d rs, listServingRuntimes servingServices (metadata_name (metadata project)) now
          = Answer d (Resolved rs)
          ∧ rs ≠ [].
Proof.
  unfold hasServingRuntimes. cbn [fst].
  destruct (listServingRuntimes _ _ _) as [|d [rs|e]]; simpl.
  - split; [done|]. by intros (? & ? & ? & _).
  - destruct rs; simpl; split; try done.
    + by intros (? & ? & [= _ <-] & ?).
    + intros _. by eexists _, _.
  - split; [done|]. by intros (? & ? & ? & _).
Qed.

Lemma hasServingRuntimes_requests (projects : list (@ProjectKind V)) now :
  concat ((λ item, (hasServingRuntimes servingServices item now).2) <$> projects)
  = (λ p, ListServingRuntimes (metadata_name (metadata p)) now) <$> projects.
Proof.
  induction projects as [|p l IH]; [done|].
  rewrite !fmap_cons. cbn [concat]. by rewrite IH.
Qed.

(** X16. [getModelServingProjectsAvailable] lists the projects with the
    label selector made of the two selectors, and then asks once for the
    serving runtimes of every listed project, all at the instant the list
    is there. When it is fulfilled, its result is made of the listed
    projects, in the order of the list, for which the answer has at least
    one serving runtime. When the list request rejects, it rejects with
    the same error and asks for no serving runtimes. *)
Theorem getModelServingProjectsAvailable_result now :
  let request := {|
    list_model := ProjectModel;
    list_labelSelector :=
      Some (LABEL_SELECTOR_DASHBOARD_RESOURCE ++ js ","
            ++ LABEL_SELECTOR_MODEL_SERVING_PROJECT);
    list_opts := None;
  |} in
  let r := getModelServingProjectsAvailable ProjectModel LABEL_SELECTOR_DASHBOARD_RESOURCE
             LABEL_SELECTOR_MODEL_SERVING_PROJECT servingServices now in
  (∀ t res, r.1 = Settled t (Resolved res) →
     ∃ d projects,
       k8sList servingServices request now = Answer d (Resolved projects)
       ∧ sublist res projects
       ∧ (∀ p, p ∈ res ↔
            p ∈ projects
            ∧ ∃ d' rs,
                listServingRuntimes servingServices (metadata_name (metadata p)) (now + d)
                = Answer d' (Resolved rs)
                ∧ rs ≠ [])
       ∧ r.2 = K8sListResource request now
               :: ((λ p, ListServingRuntimes (metadata_name (metadata p)) (now + d))
                     <$> projects))
  ∧ (∀ d e, k8sList servingServices request now = Answer d (Rejected e) →
       r = (Settled (now + d) (Rejected e), [K8sListResource request now])).
Proof.
  intros request r. subst r.
  unfold getModelServingProjectsAvailable, getModelServingProjects, getProjects.
  rewrite truthy_selector. fold request. split.
  - intros t res. destruct (k8sList servingServices request now) as [|d [projects|e]];
      cbn [promiseOf Promise_then fst snd]; try done.
    destruct (filter projects (hasServingRuntimes servingServices) (now + d))
      as [q log'] eqn:Hf. cbn [fst snd]. intros ->.
    pose proof (filter_result projects (hasServingRuntimes servingServices) (now + d))
      as (Hres & _). rewrite Hf in Hres. destruct (Hres _ _ eq_refl) as (-> & Hsub & _).
    exists d, projects. split; [done|]. split; [done|]. split.
    + intros p. rewrite <- hasServingRuntimes_true. split.
      * intros [Hin Ht]%list_elem_of_In%filter_In. split; [by apply list_elem_of_In|done].
      * intros [Hin%list_elem_of_In Ht]. by apply list_elem_of_In, filter_In.
    + pose proof (filter_requests_and_rejection projects
                    (hasServingRuntimes servingServices) (now + d)) as [Hlog _].
      rewrite Hf in Hlog. cbn [snd] in Hlog. rewrite Hlog.
      by rewrite hasServingRuntimes_requests.
  - by intros d e ->.
Qed.

(** X13. [addSupportServingPlatformProject] sends one request, to the
    address of the project and of the case, with the parameter
    [dryRun: 'All'] exactly for a dry run. It is fulfilled, with the name
    it was given, exactly when the answer has [applied = true]. With
    [applied] false or absent it rejects with the error that asks for an
    admin, when [throwErrorFromAxios] throws such an error again; a
    rejection of the request is passed through [throwErrorFromAxios]. *)
Theorem addSupportServingPlatformProject_outcome (name : jsstring)
    (servingPlatform : NamespaceApplicationCase) (dryRun : bool) (now : nat) :
  (∀ m, throwErrorFromAxios (Error m) = Error m) →
  let url := js "/api/namespaces/" ++ name ++ js "/" ++ renderCase servingPlatform in
  let params := if dryRun then [(js "dryRun", js "All")] else [] in
  let r := addSupportServingPlatformProject (K8sAPIOptions := K8sAPIOptions) renderCase
             ODH_PRODUCT_NAME throwErrorFromAxios servingServices name servingPlatform
             dryRun now in
  r.2 = [AxiosGetParams url params now]
  ∧ (∀ t n, r.1 = Settled t (Resolved n) ↔
       n = name
       ∧ ∃ d response s,
           axiosGetParams servingServices url params now = Answer d (Resolved response)
           ∧ data response = Some s ∧ applied s = Some true ∧ t = now + d)
  ∧ (∀ d response,
       axiosGetParams servingServices url params now = Answer d (Resolved response) →
       (data response = None
        ∨ ∃ s, data response = Some s ∧ (applied s = None ∨ applied s = Some false)) →
       r.1 = Settled (now + d)
               (Rejected (Error
                  (js "Unable to enable model serving platform in your project. Ask a "
                   ++ ODH_PRODUCT_NAME ++ js " admin for assistance."))))
  ∧ (∀ d e,
       axiosGetParams servingServices url params now = Answer d (Rejected e) →
       r.1 = Settled (now + d) (Rejected (throwErrorFromAxios e))).
Proof.
  intros Hrethrow url params r. subst r. unfold addSupportServingPlatformProject.
  fold url. fold params. cbn [fst snd]. split; [done|].
  destruct (axiosGetParams servingServices url params now) as [|d [response|e]] eqn:Ha;
    simpl.
  - split; [|split; [done|done]]. intros t n. split; [done|].
    by intros (_ & ? & ? & ? & ? & _).
  - destruct (appliedOf response) eqn:Happ; simpl.
    + split; [|split; [|done]].
      * intros t n. split.
        -- intros [= <- <-]. split; [done|].
           apply appliedOf_true in Happ as (s & Hs & Hap). by exists d, response, s.
        -- by intros (-> & ? & ? & ? & [= <- <-] & _ & _ & ->).
      * intros ?? [= <- <-] Hno. apply appliedOf_false in Hno. congruence.
    + split; [|split; [|done]].
      * intros t n. split; [done|].
        intros (_ & ? & ? & s & [= <- <-] & Hs & Hap & _).
        assert (appliedOf response = true) by (apply appliedOf_true; eauto).
        congruence.
      * intros ?? [= <- <-] _. by rewrite Hrethrow.
  - split; [|split; [done|]].
    + intros t n. split; [done|]. by intros (_ & ? & ? & ? & ? & _).
    + by intros ?? [= <- <-].
Qed.

End ServingFacts.

Lemma createProject_applied_run :
  (createProject (js "Open Data Hub") ProjectSamples.translateDisplayNameForK8s
     ProjectSamples.throwErrorFromAxios ProjectSamples.notApplied
     (js "alice") (js "My Project") (js "a project") None 0).1
  = Settled 2 (Rejected (Error
      (js "Unable to fully create your project. Ask a Open Data Hub admin for assistance."))).
Proof.
  refine (proj1 (proj1 (proj2 (createProject_applied (js "Open Data Hub")
            ProjectSamples.translateDisplayNameForK8s ProjectSamples.throwErrorFromAxios
            ProjectSamples.notApplied (js "alice") (js "My Project") (js "a project") None 0
            (λ m, eq_refl)))
          1 _ 1 _ eq_refl eq_refl _)).
  right. eexists. split; [reflexivity|]. right. reflexivity.
Defined.

Lemma addSupportServingPlatformProject_outcome_run :
  (addSupportServingPlatformProject (K8sAPIOptions := unit) ProjectSamples.renderCase
     (js "Open Data Hub") ProjectSamples.throwErrorFromAxios ProjectSamples.serving
     (js "alpha") 2 true 0).1
  = Settled 1 (Resolved (js "alpha")).
Proof.
  refine (proj2 (proj1 (proj2 (addSupportServingPlatformProject_outcome
            ProjectSamples.renderCase (js "Open Data Hub")
            ProjectSamples.throwErrorFromAxios ProjectSamples.serving
            (js "alpha") 2 true 0 (λ m, eq_refl))) 1 (js "alpha")) _).
  split; [reflexivity|].
  exists 1, {| data := Some {| applied := Some true |} |}, {| applied := Some true |}.
  repeat split.
Defined.

Lemma getModelServingProjectsAvailable_result_run :
  ∃ d projects,
    k8sList ProjectSamples.serving
      {| list_model := ProjectSamples.ProjectModel;
         list_labelSelector := Some (js "opendatahub.io/dashboard=true" ++ js ","
                                     ++ js "modelmesh-enabled");
         list_opts := None |} 0
    = Answer d (Resolved projects)
    ∧ sublist [ProjectSamples.project "alpha"] projects.
Proof.
  destruct (proj1 (getModelServingProjectsAvailable_result ProjectSamples.ProjectModel
                     (js "opendatahub.io/dashboard=true") (js "modelmesh-enabled")
                     ProjectSamples.serving 0)
              2 [ProjectSamples.project "alpha"] eq_refl)
    as (d & projects & Hlist & Hsub & _).
  exists d, projects. split; assumption.
Defined.

Lemma filter_result_run :
  (filter (K8sAPIOptions := unit)
     [ProjectSamples.project "alpha"; ProjectSamples.project "beta"]
     (hasServingRuntimes ProjectSamples.serving) 0).1
  = Settled 1 (Resolved [ProjectSamples.project "alpha"]).
Proof.
  destruct (proj1 (proj2 (filter_result
              [ProjectSamples.project "alpha"; ProjectSamples.project "beta"]
              (hasServingRuntimes ProjectSamples.serving) 0))) as [t Ht].
  - intros item Hin. apply elem_of_cons in Hin as [->|Hin].
    + by exists 1, true.
    + apply list_elem_of_singleton in Hin as ->. by exists 1, false.
  - rewrite Ht. vm_compute in Ht. injection Ht as <-. reflexivity.
Defined.

End ProjectsFacts.

(** ** Properties of the cluster-settings form *)

Module ClusterSettingsFacts.
Import ClusterSettings.

Section Form.
Variable MIN_CULLER_TIMEOUT : Z.

(** C8. When the size is [0], or the timeout is below the minimum, the
    save button is disabled, and the save handler asks nothing of the
    outside and leaves the state, with its baseline settings, as it is. *)
Theorem save_blocked st :
  pvcSize st = Finite 0
  ∨ (∃ c, cullerTimeout st = Finite c ∧ (c < MIN_CULLER_TIMEOUT)%Z) →
  isDisabled MIN_CULLER_TIMEOUT st = true
  ∧ handleSaveButtonClicked MIN_CULLER_TIMEOUT st = (st, [])
  ∧ (∀ s, UpdateClusterSettings s ∉ (handleSaveButtonClicked MIN_CULLER_TIMEOUT st).2)
  ∧ clusterSettings (handleSaveButtonClicked MIN_CULLER_TIMEOUT st).1 = clusterSettings st.
Proof.
  intros Hblocked.
  assert (Hh : handleSaveButtonClicked MIN_CULLER_TIMEOUT st = (st, [])).
  { unfold handleSaveButtonClicked. destruct (negb _); [|done].
    cbn [newClusterSettings settings_pvcSize settings_cullerTimeout].
    destruct Hblocked as [->|(c & -> & Hc)]; simpl.
    - done.
    - rewrite (bool_decide_eq_false_2 (MIN_CULLER_TIMEOUT ≤ c)%Z) by lia.
      by rewrite andb_false_r. }
  split; [|rewrite Hh; split; [done|split; [|done]]].
  - unfold isDisabled. destruct Hblocked as [->|(c & -> & Hc)]; simpl.
    + by rewrite orb_true_r.
    + rewrite (bool_decide_eq_true_2 (c < MIN_CULLER_TIMEOUT)%Z) by done.
      by rewrite !orb_true_r.
  - intros s. apply not_elem_of_nil.
Qed.

(** The handler does call [updateClusterSettings] when nothing blocks. *)
Lemma save_sent st :
  isSettingsChanged st = true →
  number_nonzero (pvcSize st) = true →
  number_ge (cullerTimeout st) MIN_CULLER_TIMEOUT = true →
  handleSaveButtonClicked MIN_CULLER_TIMEOUT st
  = (setSaving true st, [UpdateClusterSettings (newClusterSettings st)]).
Proof.
  unfold isSettingsChanged, handleSaveButtonClicked. intros -> Hp Hc.
  cbn [newClusterSettings settings_pvcSize settings_cullerTimeout].
  by rewrite Hp, Hc.
Qed.

End Form.

Section MoreForm.
Variable MIN_CULLER_TIMEOUT : Z.

Lemma isEqual_true a b : isEqual a b = true ↔ a = b.
Proof. unfold isEqual. apply bool_decide_eq_true. Qed.

Lemma newClusterSettings_setSaving b st :
  newClusterSettings (setSaving b st) = newClusterSettings st.
Proof. done. Qed.

(** X19. The save handler calls [updateClusterSettings] exactly when the
    settings of the form differ from the baseline, the size is not [0]
    (where [NaN] is not [0]) and the timeout is a number that is at least
    the minimum. It then sends the settings of the form, once, and sets
    [saving]; otherwise it changes nothing. *)
Theorem handleSaveButtonClicked_sends st :
  let sends :=
    isSettingsChanged st = true
    ∧ pvcSize st ≠ Finite 0
    ∧ ∃ c, cullerTimeout st = Finite c ∧ (MIN_CULLER_TIMEOUT ≤ c)%Z in
  (sends → handleSaveButtonClicked MIN_CULLER_TIMEOUT st
           = (setSaving true st, [UpdateClusterSettings (newClusterSettings st)]))
  ∧ (¬ sends → handleSaveButtonClicked MIN_CULLER_TIMEOUT st = (st, [])).
Proof.
  unfold handleSaveButtonClicked, isSettingsChanged.
  cbn [newClusterSettings settings_pvcSize settings_cullerTimeout]. split.
  - intros (-> & Hp & c & -> & Hc). simpl.
    rewrite (bool_decide_eq_true_2 (MIN_CULLER_TIMEOUT ≤ c)%Z) by done.
    destruct (pvcSize st) as [|z]; simpl; [done|].
    rewrite bool_decide_eq_true_2; [done|]. by intros ->.
  - intros Hno. destruct (negb (isEqual _ _)) eqn:Hch; [|done].
    destruct (pvcSize st) as [|z] eqn:Hp; simpl.
    + destruct (cullerTimeout st) as [|c] eqn:Hc; simpl; [done|].
      case_bool_decide; [|done]. destruct Hno. split; [done|]. split; [done|]. eauto.
    + case_bool_decide as Hz; simpl; [|done].
      destruct (cullerTimeout st) as [|c] eqn:Hc; simpl; [done|].
      case_bool_decide; [|done]. destruct Hno. split; [done|].
      split; [by intros [= ->]|]. eauto.
Qed.

(** X20. A click on the enabled button saves when the timeout is a
    number: the handler sends the settings of the form, and the button is
    disabled from then on, while the call is under way. With a timeout
    that is [NaN] the button can be enabled, and the click then changes
    nothing. *)
Theorem enabled_button_saves st :
  isDisabled MIN_CULLER_TIMEOUT st = false →
  (cullerTimeout st ≠ NaN →
   handleSaveButtonClicked MIN_CULLER_TIMEOUT st
   = (setSaving true st, [UpdateClusterSettings (newClusterSettings st)])
   ∧ isDisabled MIN_CULLER_TIMEOUT (handleSaveButtonClicked MIN_CULLER_TIMEOUT st).1 = true)
  ∧ (cullerTimeout st = NaN →
     handleSaveButtonClicked MIN_CULLER_TIMEOUT st = (st, [])).
Proof.
  unfold isDisabled, handleSaveButtonClicked, isSettingsChanged.
  cbn [newClusterSettings settings_pvcSize settings_cullerTimeout].
  intros Hen. repeat (apply orb_false_elim in Hen as [Hen ?]).
  destruct (negb (isEqual _ _)); [|done].
  destruct (pvcSize st) as [|z]; [done|]. simpl in *.
  case_bool_decide as Hz; [done|]. rewrite bool_decide_eq_true_2 by done.
  split.
  - intros Hnan. destruct (cullerTimeout st) as [|c]; [done|]. simpl in *.
    case_bool_decide; [done|]. rewrite bool_decide_eq_true_2 by lia. done.
  - by intros ->.
Qed.

(** X21. After the call was answered with success, the baseline is the
    settings that were sent, [saving] is off and one success notification
    is dispatched. If the form still holds the settings that were sent,
    nothing is left to save: the button is disabled and a further click
    sends nothing. *)
Theorem save_succeeded new response errorMessage st :
  response_success response = true →
  let after := handleUpdateSettled new (Resolved response) errorMessage st in
  clusterSettings after.1 = new
  ∧ saving after.1 = false
  ∧ (∃ n, after.2 = [Dispatch n] ∧ status n = success)
  ∧ newClusterSettings after.1 = newClusterSettings st
  ∧ (newClusterSettings st = new →
     isSettingsChanged after.1 = false
     ∧ isDisabled MIN_CULLER_TIMEOUT after.1 = true
     ∧ handleSaveButtonClicked MIN_CULLER_TIMEOUT after.1 = (after.1, [])).
Proof.
  intros Hs. unfold handleUpdateSettled. rewrite Hs. cbn [fst snd].
  split; [done|]. split; [done|]. split; [eauto|]. split; [done|].
  intros Hsame.
  assert (Hch : isSettingsChanged (setClusterSettings new (setSaving false st)) = false).
  { change (negb (isEqual new (newClusterSettings st)) = false).
    rewrite Hsame. unfold isEqual. by rewrite bool_decide_eq_true_2. }
  split; [done|]. split.
  - unfold isDisabled. rewrite Hch. simpl. by rewrite !orb_true_r.
  - unfold handleSaveButtonClicked. unfold isSettingsChanged in Hch.
    by destruct (negb _).
Qed.

(** X22. After the call failed, by an answer without success or by a
    rejection, the baseline and the form are as before, [saving] is off,
    and one danger notification with the message of the failure is
    dispatched; the button is then as it was without [saving]. *)
Theorem save_failed new o errorMessage st :
  (∃ response, o = Resolved response ∧ response_success response = false)
  ∨ (∃ e, o = Rejected e) →
  let after := handleUpdateSettled new o errorMessage st in
  after.1 = setSaving false st
  ∧ clusterSettings after.1 = clusterSettings st
  ∧ isSettingsChanged after.1 = isSettingsChanged st
  ∧ (∃ n, after.2 = [Dispatch n] ∧ status n = danger ∧ title n = js "Error"
          ∧ message n = match o with
                        | Resolved response => response_error response
                        | Rejected e => errorMessage e
                        end)
  ∧ isDisabled MIN_CULLER_TIMEOUT after.1
    = isDisabled MIN_CULLER_TIMEOUT (setSaving false st).
Proof.
  intros [(response & -> & Hs)|(e & ->)]; unfold handleUpdateSettled; try rewrite Hs;
    cbn [fst snd]; (split; [done|]); (split; [done|]); (split; [done|]);
    (split; [|done]); eexists; done.
Qed.

(** X23. After the settings were fetched, the baseline and the platforms
    of the form are the fetched ones, so that the form has something to
    save exactly when one of its other fields differs from what was
    fetched. A failed fetch records the error and leaves the baseline, the
    form and [loaded] as they were. *)
Theorem fetch_settled fetched e st :
  let ok := handleFetchSettled (Resolved fetched) st in
  let ko := handleFetchSettled (Rejected e) st in
  clusterSettings ok = fetched
  ∧ loaded ok = true ∧ loadError ok = None
  ∧ (isSettingsChanged ok = false ↔
       settings_pvcSize fetched = pvcSize st
       ∧ settings_cullerTimeout fetched = cullerTimeout st
       ∧ settings_userTrackingEnabled fetched = userTrackingEnabled st
       ∧ settings_notebookTolerationSettings fetched
         = Some {| enabled := form_enabled (notebookTolerationSettings st);
                   key := form_key (notebookTolerationSettings st) |})
  ∧ loadError ko = Some e ∧ loaded ko = loaded st
  ∧ clusterSettings ko = clusterSettings st
  ∧ newClusterSettings ko = newClusterSettings st
  ∧ isDisabled MIN_CULLER_TIMEOUT ko = isDisabled MIN_CULLER_TIMEOUT st.
Proof.
  cbn zeta. split; [done|]. split; [done|]. split; [done|]. split; [|done].
  unfold isSettingsChanged. rewrite negb_false_iff, isEqual_true.
  unfold handleFetchSettled, newClusterSettings. cbn.
  destruct fetched as [p c u n m]. cbn. split.
  - by intros [= -> -> -> ->].
  - by intros (-> & -> & -> & ->).
Qed.

End MoreForm.

Lemma save_blocked_run :
  isDisabled 600 ClusterSettingsSamples.zeroSize = true
  ∧ handleSaveButtonClicked 600 ClusterSettingsSamples.zeroSize
    = (ClusterSettingsSamples.zeroSize, [])
  ∧ isDisabled 600 ClusterSettingsSamples.shortTimeout = true
  ∧ handleSaveButtonClicked 600 ClusterSettingsSamples.shortTimeout
    = (ClusterSettingsSamples.shortTimeout, []).
Proof.
  destruct (save_blocked 600 ClusterSettingsSamples.zeroSize (or_introl eq_refl))
    as (Hd & Hh & _).
  destruct (save_blocked 600 ClusterSettingsSamples.shortTimeout
              (or_intror (ex_intro _ 60%Z (conj eq_refl eq_refl))))
    as (Hd' & Hh' & _).
  repeat split; assumption.
Defined.

(** With a size of [30] the button is enabled and the handler sends the
    new settings. *)
Lemma save_sent_run :
  isDisabled 600 ClusterSettingsSamples.largerSize = false
  ∧ (handleSaveButtonClicked 600 ClusterSettingsSamples.largerSize).2
    = [UpdateClusterSettings (newClusterSettings ClusterSettingsSamples.largerSize)].
Proof. by vm_compute. Qed.

Lemma enabled_button_saves_run :
  isDisabled 600 ClusterSettingsSamples.largerSize = false
  ∧ handleSaveButtonClicked 600 ClusterSettingsSamples.largerSize
    = (setSaving true ClusterSettingsSamples.largerSize,
       [UpdateClusterSettings (newClusterSettings ClusterSettingsSamples.largerSize)])
  ∧ isDisabled 600 (handleSaveButtonClicked 600 ClusterSettingsSamples.largerSize).1 = true.
Proof.
  split; [reflexivity|].
  apply (proj1 (enabled_button_saves 600 ClusterSettingsSamples.largerSize eq_refl)).
  discriminate.
Defined.

Lemma save_succeeded_run :
  isDisabled 600
    (handleUpdateSettled (newClusterSettings ClusterSettingsSamples.largerSize)
       (Resolved {| response_success := true; response_error := [] |})
       (λ _, []) (setSaving true ClusterSettingsSamples.largerSize)).1
  = true.
Proof.
  destruct (save_succeeded 600 (newClusterSettings ClusterSettingsSamples.largerSize)
              {| response_success := true; response_error := [] |} (λ _, [])
              (setSaving true ClusterSettingsSamples.largerSize) eq_refl)
    as (_ & _ & _ & _ & Hsame).
  destruct (Hsame eq_refl) as (_ & Hd & _). exact Hd.
Defined.

Lemma save_failed_run :
  isDisabled 600
    (handleUpdateSettled (newClusterSettings ClusterSettingsSamples.largerSize)
       (Rejected (Error (js "forbidden")))
       (λ _, js "forbidden") (setSaving true ClusterSettingsSamples.largerSize)).1
  = false.
Proof.
  destruct (save_failed 600 (newClusterSettings ClusterSettingsSamples.largerSize)
              (Rejected (Error (js "forbidden"))) (λ _, js "forbidden")
              (setSaving true ClusterSettingsSamples.largerSize)
              (or_intror (ex_intro _ _ eq_refl)))
    as (_ & _ & _ & _ & Hd).
  rewrite Hd. reflexivity.
Defined.

End ClusterSettingsFacts.
